(** * DOSMA [generate_mask.py]: the segmentation orchestrator

    A shallow embedding of the command-line orchestrator of
    [src/generate_mask.py] and the properties its specification states.

    The script is sequential glue around four collaborator modules
    ([utils], [models], [im_utils], [dess_utils]).  The embedding keeps that
    shape: Python statements become steps of a state-and-exception monad
    over a [World] (file system, process environment, module-level
    configuration and the log of collaborator calls), and the collaborator
    modules are the fields of a [Services] record. *)

From Stdlib Require Import ZArith Ascii String.
From stdpp Require Import base strings list gmap.

Local Open Scope string_scope.
Local Open Scope list_scope.

(** ** Python exceptions and outcomes *)

(** The exception classes the script raises itself or provokes in the
    interpreter, and [CollaboratorError] for anything else a collaborator
    module lets escape. *)
Inductive exn : Type :=
| ValueError (msg : string)
| NotADirectoryError (msg : string)
| TypeError (msg : string)
| IndexError (msg : string)
| KeyError (key : string)
| FileExistsError (path : string)
| AssertionError
| CollaboratorError (msg : string).

Inductive outcome (A : Type) : Type :=
| Return (a : A)
| Raise (e : exn).
Arguments Return {A} a.
Arguments Raise {A} e.

(** ** A state-and-exception monad

    A raised exception keeps the state reached so far: side effects that
    happened before the [raise] stay. *)
Definition M (Σ A : Type) : Type := Σ → Σ * outcome A.

Definition ret {Σ A} (a : A) : M Σ A := λ s, (s, Return a).

Definition raise {Σ A} (e : exn) : M Σ A := λ s, (s, Raise e).

Definition bind {Σ A B} (m : M Σ A) (k : A → M Σ B) : M Σ B :=
  λ s, match m s with
       | (s', Return a) => k a s'
       | (s', Raise e) => (s', Raise e)
       end.

(** [try: body / except <classes>: handler].  [handler e] is [None] when no
    [except] clause matches [e], which then propagates. *)
Definition try_except {Σ A} (body : M Σ A) (handler : exn → option (M Σ A)) : M Σ A :=
  λ s, match body s with
       | (s', Return a) => (s', Return a)
       | (s', Raise e) =>
           match handler e with
           | Some h => h s'
           | None => (s', Raise e)
           end
       end.

Declare Scope py_scope.
Delimit Scope py_scope with py.
Notation "x <- c1 ;; c2" := (bind c1 (λ x, c2))
  (at level 100, c1 at next level, right associativity) : py_scope.
Notation "c1 ;; c2" := (bind c1 (λ _, c2))
  (at level 100, right associativity) : py_scope.
Local Open Scope py_scope.

(** [for x in xs: body x] *)
Fixpoint for_in {Σ A} (xs : list A) (body : A → M Σ unit) : M Σ unit :=
  match xs with
  | [] => ret tt
  | x :: xs' => body x ;; for_in xs' body
  end.

(** A statement of the enclosing scope run inside a block that also has a
    local variable of type [L]. *)
Definition lift {Σ L A} (m : M Σ A) : M (Σ * L) A :=
  λ '(s, l), let '(s', r) := m s in ((s', l), r).

(** Runs a block that owns one local variable, initialised to [init], and
    returns the variable's final value ([return <local>]). *)
Definition with_local {Σ L} (init : L) (block : M (Σ * L) unit) : M Σ L :=
  λ s, match block (s, init) with
       | ((s', l), Return _) => (s', Return l)
       | ((s', _), Raise e) => (s', Raise e)
       end.

(** ** Python dictionaries

    A [dict] keeps its keys in insertion order and assigning to a key that
    is present keeps the key's position. *)
Definition Dict (V : Type) : Type := list (string * V).

Definition dict_empty {V} : Dict V := [].

Fixpoint dict_set {V} (k : string) (v : V) (d : Dict V) : Dict V :=
  match d with
  | [] => [(k, v)]
  | (k', v') :: d' =>
      if decide (k = k') then (k', v) :: d' else (k', v') :: dict_set k v d'
  end.

Fixpoint dict_get {V} (k : string) (d : Dict V) : option V :=
  match d with
  | [] => None
  | (k', v') :: d' => if decide (k = k') then Some v' else dict_get k d'
  end.

Definition dict_keys {V} (d : Dict V) : list string := d.*1.

(** [d[k]] *)
Definition dict_getitem {Σ V} (d : Dict V) (k : string) : M Σ V :=
  match dict_get k d with
  | Some v => ret v
  | None => raise (KeyError k)
  end.

(** [l[0]] on a sequence. *)
Definition getitem0 {Σ A} (l : list A) : M Σ A :=
  match l with
  | x :: _ => ret x
  | [] => raise (IndexError "list index out of range")
  end.

(** [o[0]] where [o] is [None] or a list. *)
Definition getitem0_opt {Σ A} (o : option (list A)) : M Σ A :=
  match o with
  | Some l => getitem0 l
  | None => raise (TypeError "'NoneType' object is not subscriptable")
  end.

(** ** [os.path] on POSIX paths *)

Fixpoint endswith_sep (s : string) : bool :=
  match s with
  | EmptyString => false
  | String c s' =>
      match s' with
      | EmptyString => bool_decide (c = "/"%char)
      | String _ _ => endswith_sep s'
      end
  end.

(** [os.path.join(a, b)] *)
Definition os_path_join (a b : string) : string :=
  if String.prefix "/" b then b
  else if bool_decide (a = "") || endswith_sep a then a +:+ b
  else a +:+ "/" +:+ b.

(** ** The collaborator modules *)

Inductive Node : Type := Dir | File.

Global Instance Node_eq_dec : EqDecision Node.
Proof. solve_decision. Defined.

(** The modules [utils], [models] and [dess_utils] are not part of the
    program under study: their functions and constants are the fields of
    this record ([svc_f] for a function [f]).  Every function may raise.
    [utils.load_dicom] reads the disk and [models.generate_mask] reads
    [models.BATCH_SIZE].

    [sys_makedirs disk path] is what the operating system does on
    [os.makedirs(path)] for a path that is not on the disk: the directories
    it creates on the way to [path], and whether the call then returns,
    having created [path] too, or raises (a parent that is a regular file,
    a missing permission, a read-only or full file system, ...). *)
Record Services : Type := {
  Volume : Type;      (* a numpy array *)
  RefDicom : Type;
  T2Map : Type;
  T2Summary : Type;
  shape : Volume → list nat;
  svc_load_dicom : gmap string Node → string → option string → outcome (Volume * RefDicom);
  svc_split_volume : Volume → Z → outcome (list Volume);
  svc_whiten_volume : Volume → outcome Volume;
  FEMORAL_CARTILAGE_STR : string;
  TIBIAL_CARTILAGE_STR : string;
  MENISCUS_STR : string;
  PATELLAR_CARTILAGE_STR : string;
  svc_generate_mask : option Z → Volume → string → outcome Volume;
  NUM_ECHOS : Z;
  svc_calc_dess_t2_map : Volume → RefDicom → outcome T2Map;
  svc_get_tissue_t2 : T2Map → Volume → string → outcome T2Summary;
  sys_makedirs : gmap string Node → string → list string * outcome unit
}.

(** ** The command line

    What the user typed, as far as [argparse] distinguishes it.  An option
    declared with [nargs='?'] is absent ([None]), given without a value
    ([Some None]) or given with one. *)
Record CommandLine : Type := {
  arg_dicom : option string;
  arg_save : option (option string);
  arg_ext : option (option string);
  arg_f : bool;
  arg_t : bool;
  arg_m : bool;
  arg_p : bool;
  arg_dess : bool;
  arg_t2 : bool;
  arg_batch_size : option (option Z);
  arg_gpu : option (option string)
}.

(** The namespace [parser.parse_args()] returns; [None] is Python's [None]. *)
Record Namespace : Type := {
  args_dicom : option (list string);
  args_save : option string;
  args_ext : option string;
  args_f : option string;
  args_t : option string;
  args_m : option string;
  args_p : option string;
  args_dess : bool;
  args_t2 : bool;
  args_batch_size : option Z;
  args_gpu : option string
}.

(** [nargs='?']: the default when the option is absent, [const] (which is
    [None] for every such option of this parser) when it has no value. *)
Definition nargs_optional {A} (default : option A) (o : option (option A)) : option A :=
  match o with
  | None => default
  | Some None => None
  | Some (Some v) => Some v
  end.

(** [action='store_const'] *)
Definition store_const {A} (const default : A) (present : bool) : A :=
  if present then const else default.

(** ** Collaborators used by the examples

    A small concrete instance of [Services]: a volume is its shape and a
    flag telling whether it has been whitened. *)
Module Demo.

Record vol : Type := { whitened : bool; dims : list nat }.

Definition load (disk : gmap string Node) (path : string) (ext : option string)
  : outcome (vol * string) :=
  if bool_decide (disk !! path = Some Dir)
  then Return ({| whitened := false; dims := [4; 8; 8] |}, "ref:" +:+ path)
  else Raise (CollaboratorError "no dicom series").

(** Halves the first axis per echo. *)
Definition split (v : vol) (echos : Z) : outcome (list vol) :=
  Return (replicate (Z.to_nat echos)
            {| whitened := whitened v;
               dims := match dims v with
                       | d :: ds => (d `div` Z.to_nat echos)%nat :: ds
                       | [] => []
                       end |}).

Definition whiten (v : vol) : outcome vol :=
  Return {| whitened := true; dims := dims v |}.

Definition segment (batch : option Z) (v : vol) (tissue : string) : outcome vol :=
  Return {| whitened := false; dims := dims v |}.

(** A segmentation model that returns a mask of the wrong shape for the
    meniscus. *)
Definition segment_faulty (batch : option Z) (v : vol) (tissue : string) : outcome vol :=
  if bool_decide (tissue = "meniscus")
  then Return {| whitened := false; dims := [1] |}
  else segment batch v tissue.

(** The proper prefixes of a path that end before a separator:
    [a] and [a/b] for [a/b/c]. *)
Fixpoint parents_from (seen rest : string) : list string :=
  match rest with
  | EmptyString => []
  | String c rest' =>
      if bool_decide (c = "/"%char)
      then (if bool_decide (seen = "") then [] else [seen])
             ++ parents_from (seen +:+ "/") rest'
      else parents_from (seen +:+ String c EmptyString) rest'
  end.

(** Walks the parents of [path]: an absent one is created, one that is a
    regular file stops the call with [ENOTDIR]. *)
Fixpoint makedirs_walk (disk : gmap string Node) (path : string)
    (created parents : list string) : list string * outcome unit :=
  match parents with
  | [] => (created, Return tt)
  | p :: parents' =>
      match disk !! p with
      | Some File =>
          (created,
           Raise (NotADirectoryError ("[Errno 20] Not a directory: '" +:+ path +:+ "'")))
      | Some Dir => makedirs_walk disk path created parents'
      | None => makedirs_walk disk path (created ++ [p]) parents'
      end
  end.

Definition makedirs (disk : gmap string Node) (path : string) : list string * outcome unit :=
  makedirs_walk disk path [] (parents_from "" path).

Definition t2_fit (v : vol) (ref : string) : outcome (list nat * string) :=
  Return (dims v, ref).

Definition t2_summary (t2 : list nat * string) (mask : vol) (tissue : string) : outcome nat :=
  Return (length (dims mask)).

Definition services : Services := {|
  Volume := vol;
  RefDicom := string;
  T2Map := list nat * string;
  T2Summary := nat;
  shape := dims;
  svc_load_dicom := load;
  svc_split_volume := split;
  svc_whiten_volume := whiten;
  FEMORAL_CARTILAGE_STR := "femoral_cartilage";
  TIBIAL_CARTILAGE_STR := "tibial_cartilage";
  MENISCUS_STR := "meniscus";
  PATELLAR_CARTILAGE_STR := "patellar_cartilage";
  svc_generate_mask := segment;
  NUM_ECHOS := 2%Z;
  svc_calc_dess_t2_map := t2_fit;
  svc_get_tissue_t2 := t2_summary;
  sys_makedirs := makedirs
|}.

Definition faulty_services : Services := {|
  Volume := vol;
  RefDicom := string;
  T2Map := list nat * string;
  T2Summary := nat;
  shape := dims;
  svc_load_dicom := load;
  svc_split_volume := split;
  svc_whiten_volume := whiten;
  FEMORAL_CARTILAGE_STR := "femoral_cartilage";
  TIBIAL_CARTILAGE_STR := "tibial_cartilage";
  MENISCUS_STR := "meniscus";
  PATELLAR_CARTILAGE_STR := "patellar_cartilage";
  svc_generate_mask := segment_faulty;
  NUM_ECHOS := 2%Z;
  svc_calc_dess_t2_map := t2_fit;
  svc_get_tissue_t2 := t2_summary;
  sys_makedirs := makedirs
|}.

(** A command line with only [-d path] and the given flags. *)
Definition cmd (d : option string) (s : option (option string))
    (f t m p dess t2 : bool) : CommandLine := {|
  arg_dicom := d; arg_save := s; arg_ext := None;
  arg_f := f; arg_t := t; arg_m := m; arg_p := p;
  arg_dess := dess; arg_t2 := t2;
  arg_batch_size := None; arg_gpu := None
|}.

(** Volumes that occur in the example runs. *)
Definition raw : vol := {| whitened := false; dims := [4; 8; 8] |}.
Definition first_echo : vol := {| whitened := false; dims := [2; 8; 8] |}.
Definition white : vol := {| whitened := true; dims := [4; 8; 8] |}.
Definition white_first_echo : vol := {| whitened := true; dims := [2; 8; 8] |}.
Definition mask : vol := {| whitened := false; dims := [4; 8; 8] |}.
Definition bad_mask : vol := {| whitened := false; dims := [1] |}.

(** A segmentation model that raises on the meniscus. *)
Definition segment_crashing (batch : option Z) (v : vol) (tissue : string) : outcome vol :=
  if bool_decide (tissue = "meniscus")
  then Raise (CollaboratorError "out of memory")
  else segment batch v tissue.

Definition crashing_services : Services := {|
  Volume := vol;
  RefDicom := string;
  T2Map := list nat * string;
  T2Summary := nat;
  shape := dims;
  svc_load_dicom := load;
  svc_split_volume := split;
  svc_whiten_volume := whiten;
  FEMORAL_CARTILAGE_STR := "femoral_cartilage";
  TIBIAL_CARTILAGE_STR := "tibial_cartilage";
  MENISCUS_STR := "meniscus";
  PATELLAR_CARTILAGE_STR := "patellar_cartilage";
  svc_generate_mask := segment_crashing;
  NUM_ECHOS := 2%Z;
  svc_calc_dess_t2_map := t2_fit;
  svc_get_tissue_t2 := t2_summary;
  sys_makedirs := makedirs
|}.

End Demo.

Section Orchestrator.

Context (S : Services).

(** ** The world the script runs in *)

(** One entry per call the script makes into a collaborator module, into
    [os.makedirs] or into [print], logged when the call is made, so a call
    that raises is in the log too. *)
Inductive Event : Type :=
| EvPrint (line : string)
| EvMakedirs (path : string)
| EvLoadDicom (path : string) (ext : option string)
| EvSplitVolume (volume : Volume S) (echos : Z)
| EvWhitenVolume (volume : Volume S)
| EvGenerateMask (volume : Volume S) (tissue : string)
| EvWrite3d (path : string) (mask : Volume S)
| EvCalcT2Map (volume : Volume S) (ref_dicom : RefDicom S)
| EvGetTissueT2 (t2_map : T2Map S) (mask : Volume S) (tissue : string).

(** The disk is a table from path strings to nodes. *)
Record World : Type := {
  fs : gmap string Node;
  environ : gmap string string;     (* os.environ *)
  BATCH_SIZE : option Z;            (* models.BATCH_SIZE *)
  log : list Event
}.

Definition emit (e : Event) : M World unit :=
  λ w, ({| fs := fs w; environ := environ w; BATCH_SIZE := BATCH_SIZE w;
           log := log w ++ [e] |}, Return tt).

(** A call into a collaborator: logged, then answered by the service. *)
Definition call {A} (e : Event) (answer : World → outcome A) : M World A :=
  emit e ;; λ w, (w, answer w).

Definition print (line : string) : M World unit := emit (EvPrint line).

Definition utils_load_dicom (path : string) (ext : option string)
  : M World (Volume S * RefDicom S) :=
  call (EvLoadDicom path ext) (λ w, svc_load_dicom S (fs w) path ext).

Definition utils_split_volume (volume : Volume S) (echos : Z) : M World (list (Volume S)) :=
  call (EvSplitVolume volume echos) (λ _, svc_split_volume S volume echos).

Definition utils_whiten_volume (volume : Volume S) : M World (Volume S) :=
  call (EvWhitenVolume volume) (λ _, svc_whiten_volume S volume).

Definition models_generate_mask (volume : Volume S) (tissue : string) : M World (Volume S) :=
  call (EvGenerateMask volume tissue) (λ w, svc_generate_mask S (BATCH_SIZE w) volume tissue).

Definition dess_utils_calc_dess_t2_map (volume : Volume S) (ref_dicom : RefDicom S)
  : M World (T2Map S) :=
  call (EvCalcT2Map volume ref_dicom) (λ _, svc_calc_dess_t2_map S volume ref_dicom).

Definition dess_utils_get_tissue_t2 (t2_map : T2Map S) (mask : Volume S) (tissue : string)
  : M World (T2Summary S) :=
  call (EvGetTissueT2 t2_map mask tissue) (λ _, svc_get_tissue_t2 S t2_map mask tissue).

(** Modelled from the spec: [im_utils.write_3d], the Mask Writer, whose
    code is not part of the program under study.  Its interface is
    [(path, Mask) -> unit], "writes a 3D image file": the call is logged
    and the path becomes a file. *)
Definition im_utils_write_3d (path : string) (mask : Volume S) : M World unit :=
  emit (EvWrite3d path mask) ;;
  λ w, ({| fs := <[path := File]> (fs w); environ := environ w;
           BATCH_SIZE := BATCH_SIZE w; log := log w |}, Return tt).

(** [os.path.isdir(path)] for a [str]. *)
Definition os_path_isdir (path : string) : M World bool :=
  λ w, (w, Return (bool_decide (fs w !! path = Some Dir))).

(** A directory the operating system creates: an entry that is already on
    the disk is left as it is. *)
Definition create_dir (path : string) (disk : gmap string Node) : gmap string Node :=
  match disk !! path with
  | None => <[path := Dir]> disk
  | Some _ => disk
  end.

Definition create_dirs (paths : list string) (disk : gmap string Node)
  : gmap string Node :=
  foldl (λ disk path, create_dir path disk) disk paths.

(** [os.makedirs(path)]: raises [FileExistsError] when the path is already
    there; otherwise the operating system creates the missing parents and
    then the path, or raises on the way, the parents it created staying. *)
Definition os_makedirs (path : string) : M World unit :=
  emit (EvMakedirs path) ;;
  λ w, match fs w !! path with
       | Some _ => (w, Raise (FileExistsError path))
       | None =>
           let made := sys_makedirs S (fs w) path in
           match made.2 with
           | Return _ =>
               ({| fs := <[path := Dir]> (create_dirs made.1 (fs w));
                   environ := environ w; BATCH_SIZE := BATCH_SIZE w; log := log w |},
                Return tt)
           | Raise e =>
               ({| fs := create_dirs made.1 (fs w);
                   environ := environ w; BATCH_SIZE := BATCH_SIZE w; log := log w |},
                Raise e)
           end
       end.

(** [os.environ[key] = value] *)
Definition os_environ_setitem (key value : string) : M World unit :=
  λ w, ({| fs := fs w; environ := <[key := value]> (environ w);
           BATCH_SIZE := BATCH_SIZE w; log := log w |}, Return tt).

(** [models.BATCH_SIZE = value] *)
Definition models_set_BATCH_SIZE (value : option Z) : M World unit :=
  λ w, ({| fs := fs w; environ := environ w; BATCH_SIZE := value; log := log w |},
        Return tt).

(** [assert(cond)], assertions being enabled (the interpreter runs without
    [-O]). *)
Definition py_assert {Σ} (cond : bool) : M Σ unit :=
  if cond then ret tt else raise AssertionError.

(** [local[key] = value] on the dictionary a block owns. *)
Definition local_setitem {Σ V} (key : string) (value : V) : M (Σ * Dict V) unit :=
  λ '(s, d), ((s, dict_set key value d), Return tt).

(** ** [generate_mask], lines 12-42 *)

(** The body of [for tissue in tissue_strs], lines 32-40; the local
    variable of the block is [masks]. *)
Definition generate_mask_body (volume : Volume S) (save_path tissue : string)
  : M (World * Dict (Volume S)) unit :=
  lift (print ("Segmenting " +:+ tissue +:+ "...")) ;;
  mask <- lift (models_generate_mask volume tissue) ;;
  py_assert (bool_decide (shape S volume = shape S mask)) ;;
  (* Output mask as 3d tiff *)
  let mask_filepath := os_path_join save_path (tissue +:+ ".tiff") in
  lift (im_utils_write_3d mask_filepath mask) ;;
  local_setitem tissue mask.

Definition generate_mask (dicom_path save_path : string) (tissue_strs : list string)
    (dicom_ext : option string) (echos : Z) : M World (Dict (Volume S)) :=
  loaded <- utils_load_dicom dicom_path dicom_ext ;;
  let volume := loaded.1 in
  subvolumes <- utils_split_volume volume echos ;;
  (* Use first echo for segmentation *)
  volume <- getitem0 subvolumes ;;
  volume <- utils_whiten_volume volume ;;
  with_local dict_empty (
    lift (print "") ;;
    for_in tissue_strs (generate_mask_body volume save_path)).

(** ** [calculate_t2_maps], lines 45-57 *)

Definition calculate_t2_maps_body (masks : Dict (Volume S)) (t2_map : T2Map S)
    (tissue : string) : M (World * Dict (T2Summary S)) unit :=
  mask <- dict_getitem masks tissue ;;
  t2 <- lift (dess_utils_get_tissue_t2 t2_map mask tissue) ;;
  local_setitem tissue t2.

Definition calculate_t2_maps (dicom_path save_path : string) (dicom_ext : option string)
    (masks : Dict (Volume S)) : M World (Dict (T2Summary S)) :=
  print "" ;;
  print "Calculating T2 map..." ;;
  loaded <- utils_load_dicom dicom_path dicom_ext ;;
  let volume := loaded.1 in
  let ref_dicom := loaded.2 in
  t2_map <- dess_utils_calc_dess_t2_map volume ref_dicom ;;
  with_local dict_empty (
    for_in (dict_keys masks) (calculate_t2_maps_body masks t2_map)).

(** ** Error messages

    The messages of the exceptions [parse_args] raises (lines 111, 121 and
    133) and of the two [TypeError]s the interpreter raises for it. *)

Definition NO_DICOM_MSG : string := "No path to dicom provided".

(** ["Directory '%s' does not exist" % dicom_path] *)
Definition NOT_A_DIRECTORY_MSG (dicom_path : string) : string :=
  "Directory '" +:+ dicom_path +:+ "' does not exist".

Definition T2_WITHOUT_DESS_MSG : string :=
  "calculating t2 maps only compatible with DESS dicoms. Please specify the --dess flag".

Definition BOOL_NOT_CALLABLE_MSG : string := "'bool' object is not callable".

Definition ISDIR_NONE_MSG : string :=
  "stat: path should be string, bytes, os.PathLike or integer, not NoneType".

(** ** [parse_args], lines 60-152 *)

(** Lines 66-102: the parser's declarations applied to the command line. *)
Definition parser_parse_args (argv : CommandLine) : Namespace := {|
  args_dicom := (λ d, [d]) <$> arg_dicom argv;       (* nargs=1 *)
  args_save := nargs_optional (Some "") (arg_save argv);
  args_ext := nargs_optional None (arg_ext argv);
  args_f := store_const (Some (FEMORAL_CARTILAGE_STR S)) None (arg_f argv);
  args_t := store_const (Some (TIBIAL_CARTILAGE_STR S)) None (arg_t argv);
  args_m := store_const (Some (MENISCUS_STR S)) None (arg_m argv);
  args_p := store_const (Some (PATELLAR_CARTILAGE_STR S)) None (arg_p argv);
  args_dess := store_const true false (arg_dess argv);
  args_t2 := store_const true false (arg_t2 argv);
  args_batch_size := nargs_optional (Some 32%Z) (arg_batch_size argv);
  args_gpu := nargs_optional None (arg_gpu argv)
|}.

(** Lines 143-146: the tissues to segment. *)
Definition tissue_strs_of (args : Namespace) : list string :=
  let tissue_strs := [args_f args; args_t args; args_m args; args_p args] in
  let tissue_strs := omap id tissue_strs in
  if bool_decide (length tissue_strs = 0%nat)
  then [FEMORAL_CARTILAGE_STR S; TIBIAL_CARTILAGE_STR S;
        MENISCUS_STR S; PATELLAR_CARTILAGE_STR S]
  else tissue_strs.

(** The objects the name [calculate_t2_maps] is bound to in the script:
    at module level the function of line 45, and inside [parse_args],
    where line 130 assigns to the name and so makes it a local variable
    of the whole function body, a [bool]. *)
Inductive pyobject : Type :=
| PyBool (b : bool)
| PyFunction (f : string → string → option string → Dict (Volume S) →
                  M World (Dict (T2Summary S))).

(** The truth value of an object in an [if]. *)
Definition truth (o : pyobject) : bool :=
  match o with
  | PyBool b => b
  | PyFunction _ => true
  end.

(** [callee(dicom_path, save_path, dicom_ext, masks)] *)
Definition py_call (callee : pyobject) (dicom_path save_path : string)
    (dicom_ext : option string) (masks : Dict (Volume S))
  : M World (Dict (T2Summary S)) :=
  match callee with
  | PyFunction f => f dicom_path save_path dicom_ext masks
  | PyBool _ => raise (TypeError BOOL_NOT_CALLABLE_MSG)
  end.

Definition parse_args (argv : CommandLine) : M World unit :=
  let args := parser_parse_args argv in
  let gpu := args_gpu args in
  (match gpu with
   | Some gpu => os_environ_setitem "CUDA_VISIBLE_DEVICES" gpu
   | None => ret tt
   end) ;;
  dicom_path <- try_except (getitem0_opt (args_dicom args))
                  (λ _, Some (raise (ValueError NO_DICOM_MSG))) ;;
  let save_path := args_save args in
  let save_path := if bool_decide (save_path = Some "") then Some dicom_path else save_path in
  try_except
    (isdir <- os_path_isdir dicom_path ;;
     if negb isdir then raise (ValueError "") else ret tt)
    (λ e, match e with
          | ValueError _ =>
              Some (raise (NotADirectoryError (NOT_A_DIRECTORY_MSG dicom_path)))
          | _ => None
          end) ;;
  match save_path with
  | None =>
      (* line 123: os.path.isdir(None) *)
      raise (TypeError ISDIR_NONE_MSG)
  | Some save_path =>
      isdir <- os_path_isdir save_path ;;
      (if negb isdir then os_makedirs save_path else ret tt) ;;
      (* Dicom extension *)
      let dicom_ext := args_ext args in
      let dess := args_dess args in
      let calculate_t2_maps := PyBool (args_t2 args) in
      if negb dess && truth calculate_t2_maps
      then raise (ValueError T2_WITHOUT_DESS_MSG)
      else
        (* number of echos in volume *)
        let num_echos := if dess then NUM_ECHOS S else 1%Z in
        (* Get batch size *)
        models_set_BATCH_SIZE (args_batch_size args) ;;
        let tissue_strs := tissue_strs_of args in
        masks <- generate_mask dicom_path save_path tissue_strs dicom_ext num_echos ;;
        (* Calculate t2 maps *)
        if dess && truth calculate_t2_maps
        then py_call calculate_t2_maps dicom_path save_path dicom_ext masks ;; ret tt
        else ret tt
  end.

(** ** Reading a run *)

(** A world with the given directories and nothing else. *)
Definition world_of (dirs : list string) : World := {|
  fs := list_to_map ((λ d, (d, Dir)) <$> dirs);
  environ := ∅;
  BATCH_SIZE := None;
  log := []
|}.

(** A world with the given nodes and nothing else. *)
Definition world_with (nodes : list (string * Node)) : World := {|
  fs := list_to_map nodes;
  environ := ∅;
  BATCH_SIZE := None;
  log := []
|}.

(** The mask files the log says were written, in order. *)
Definition writes (l : list Event) : list (string * Volume S) :=
  omap (λ e, match e with EvWrite3d path mask => Some (path, mask) | _ => None end) l.


Definition is_makedirs (e : Event) : bool :=
  match e with EvMakedirs _ => true | _ => false end.

Definition is_t2_call (e : Event) : bool :=
  match e with EvCalcT2Map _ _ | EvGetTissueT2 _ _ _ => true | _ => false end.

(** ** Definitions used to state the properties *)

(** The events one completed iteration of the segmentation loop logs. *)
Definition iteration_events (volume : Volume S) (save_path : string)
    (done : string * Volume S) : list Event :=
  [EvPrint ("Segmenting " +:+ done.1 +:+ "...");
   EvGenerateMask volume done.1;
   EvWrite3d (os_path_join save_path (done.1 +:+ ".tiff")) done.2].

(** The events of an iteration that stops at the segmentation call or at
    the assertion. *)
Definition attempt_events (volume : Volume S) (tissue : string) : list Event :=
  [EvPrint ("Segmenting " +:+ tissue +:+ "..."); EvGenerateMask volume tissue].

(** The world after the iterations for [done] (tissues with their masks)
    have completed. *)
Definition segmented (volume : Volume S) (save_path : string)
    (done : list (string * Volume S)) (w : World) : World := {|
  fs := foldl (λ disk tm, <[os_path_join save_path (tm.1 +:+ ".tiff") := File]> disk)
              (fs w) done;
  environ := environ w;
  BATCH_SIZE := BATCH_SIZE w;
  log := log w ++ concat (iteration_events volume save_path <$> done)
|}.

Definition with_log (w : World) (l : list Event) : World :=
  {| fs := fs w; environ := environ w; BATCH_SIZE := BATCH_SIZE w; log := l |}.

(** The dictionary after the assignments [d[k] = v] for [(k, v)] in [kvs]. *)
Definition dict_update {V} (d : Dict V) (kvs : list (string * V)) : Dict V :=
  foldl (λ d kv, dict_set kv.1 kv.2 d) d kvs.

(** A segmentation call that returns a mask which passes the assertion. *)
Definition segments_ok (batch : option Z) (volume : Volume S)
    (tissue : string) (mask : Volume S) : Prop :=
  svc_generate_mask S batch volume tissue = Return mask ∧
  shape S volume = shape S mask.

(** The events [generate_mask] logs before its loop. *)
Definition preamble_events (dicom_path : string) (dicom_ext : option string)
    (echos : Z) (loaded first : Volume S) : list Event :=
  [EvLoadDicom dicom_path dicom_ext; EvSplitVolume loaded echos;
   EvWhitenVolume first; EvPrint ""].

Definition is_preprocessing (e : Event) : bool :=
  match e with
  | EvLoadDicom _ _ | EvSplitVolume _ _ | EvWhitenVolume _ => true
  | _ => false
  end.

(** What [with_local] makes of the loop's result. *)
Definition finish {L} (r : (World * L) * outcome unit) : World * outcome L :=
  match r with
  | ((w', l), Return _) => (w', Return l)
  | ((w', _), Raise e) => (w', Raise e)
  end.

(** Loading, splitting and whitening succeed and the loop runs on the
    whitened first sub-volume. *)
Definition preprocessed (w : World) (dicom_path : string) (dicom_ext : option string)
    (echos : Z) (loaded : Volume S * RefDicom S) (first volume : Volume S) : Prop :=
  svc_load_dicom S (fs w) dicom_path dicom_ext = Return loaded ∧
  (∃ others, svc_split_volume S loaded.1 echos = Return (first :: others)) ∧
  svc_whiten_volume S first = Return volume.

(** The path of the mask file of a tissue, [mask_filepath] of line 37. *)
Definition mask_path (save_path tissue : string) : string :=
  os_path_join save_path (tissue +:+ ".tiff").

(** The segmentation calls a log records, in order. *)
Definition segmentation_calls (l : list Event) : list (Volume S * string) :=
  omap (λ e, match e with
             | EvGenerateMask volume tissue => Some (volume, tissue)
             | _ => None
             end) l.

(** The four tissues in the order of line 146. *)
Definition all_tissues : list string :=
  [FEMORAL_CARTILAGE_STR S; TIBIAL_CARTILAGE_STR S;
   MENISCUS_STR S; PATELLAR_CARTILAGE_STR S].



(** A T2 summary call on a tissue's own mask. *)
Definition summarised (masks : Dict (Volume S)) (t2_map : T2Map S)
    (tissue : string) (summary : T2Summary S) : Prop :=
  ∃ mask, dict_get tissue masks = Some mask ∧
          svc_get_tissue_t2 S t2_map mask tissue = Return summary.

(** The event of a T2 summary call on a tissue's own mask. *)
Definition summary_event (masks : Dict (Volume S)) (t2_map : T2Map S) (e : Event) : Prop :=
  ∃ mask tissue, e = EvGetTissueT2 t2_map mask tissue ∧
                 dict_get tissue masks = Some mask.

(** The events [calculate_t2_maps] logs before its loop. *)
Definition t2_preamble_events (dicom_path : string) (dicom_ext : option string)
    (loaded : Volume S * RefDicom S) : list Event :=
  [EvPrint ""; EvPrint "Calculating T2 map...";
   EvLoadDicom dicom_path dicom_ext; EvCalcT2Map loaded.1 loaded.2].

(** The world after line 106. *)
Definition with_gpu (gpu : option string) (w : World) : World :=
  match gpu with
  | Some gpu => {| fs := fs w; environ := <["CUDA_VISIBLE_DEVICES" := gpu]> (environ w);
                   BATCH_SIZE := BATCH_SIZE w; log := log w |}
  | None => w
  end.

(** The world after an [os.makedirs(path)] that returns, having created
    [parents] on the way. *)
Definition with_new_dir (parents : list string) (path : string) (w : World) : World :=
  {| fs := <[path := Dir]> (create_dirs parents (fs w)); environ := environ w;
     BATCH_SIZE := BATCH_SIZE w; log := log w ++ [EvMakedirs path] |}.

(** The world after an [os.makedirs(path)] that raises, having created
    [parents] on the way. *)
Definition with_failed_makedirs (parents : list string) (path : string) (w : World)
  : World :=
  {| fs := create_dirs parents (fs w); environ := environ w;
     BATCH_SIZE := BATCH_SIZE w; log := log w ++ [EvMakedirs path] |}.

(** Lines 123-124 read as a case analysis on the disk and on what the
    operating system does. *)
Definition save_dir_step (save_path : string) (w : World) : World * outcome unit :=
  match fs w !! save_path with
  | Some Dir => (w, Return tt)
  | Some File =>
      (with_failed_makedirs [] save_path w, Raise (FileExistsError save_path))
  | None =>
      match (sys_makedirs S (fs w) save_path).2 with
      | Return _ =>
          (with_new_dir (sys_makedirs S (fs w) save_path).1 save_path w, Return tt)
      | Raise e =>
          (with_failed_makedirs (sys_makedirs S (fs w) save_path).1 save_path w, Raise e)
      end
  end.

(** The save path is a directory or [os.makedirs] can create it. *)
Definition save_dir_ready (save_path : string) (w : World) : bool :=
  match fs w !! save_path with
  | Some Dir => true
  | Some File => false
  | None =>
      match (sys_makedirs S (fs w) save_path).2 with
      | Return _ => true
      | Raise _ => false
      end
  end.

Definition with_BATCH_SIZE (value : option Z) (w : World) : World :=
  {| fs := fs w; environ := environ w; BATCH_SIZE := value; log := log w |}.

(** The save path lines 113-115 resolve to. *)
Definition resolve_save_path (save dicom_path : string) : string :=
  if bool_decide (save = "") then dicom_path else save.

(** The echo count of line 136. *)
Definition num_echos_of (argv : CommandLine) : Z :=
  if arg_dess argv then NUM_ECHOS S else 1%Z.

(** What lines 148-152 make of the result of [generate_mask]. *)
Definition after_generate_mask (argv : CommandLine)
    (r : World * outcome (Dict (Volume S))) : World * outcome unit :=
  match r with
  | (w', Return _) =>
      if arg_dess argv && arg_t2 argv
      then (w', Raise (TypeError BOOL_NOT_CALLABLE_MSG))
      else (w', Return tt)
  | (w', Raise e) => (w', Raise e)
  end.

(** [parse_args] read as one case analysis on the command line and the
    disk, in the order of the script's checks. *)
Definition parse_args_run (argv : CommandLine) (w : World) : World * outcome unit :=
  let w1 := with_gpu (nargs_optional None (arg_gpu argv)) w in
  match arg_dicom argv with
  | None => (w1, Raise (ValueError NO_DICOM_MSG))
  | Some dicom_path =>
      if bool_decide (fs w !! dicom_path = Some Dir) then
        match nargs_optional (Some "") (arg_save argv) with
        | None => (w1, Raise (TypeError ISDIR_NONE_MSG))
        | Some save =>
            let save_path := resolve_save_path save dicom_path in
            match save_dir_step save_path w1 with
            | (w2, Raise e) => (w2, Raise e)
            | (w2, Return _) =>
                if negb (arg_dess argv) && arg_t2 argv
                then (w2, Raise (ValueError T2_WITHOUT_DESS_MSG))
                else
                  after_generate_mask argv
                    (generate_mask dicom_path save_path
                       (tissue_strs_of (parser_parse_args argv))
                       (nargs_optional None (arg_ext argv)) (num_echos_of argv)
                       (with_BATCH_SIZE
                          (nargs_optional (Some 32%Z) (arg_batch_size argv)) w2))
            end
        end
      else (w1, Raise (NotADirectoryError (NOT_A_DIRECTORY_MSG dicom_path)))
  end.

(** ** Further readings of a log *)

(** The lines a log says were printed, in order. *)
Definition prints (l : list Event) : list string :=
  omap (λ e, match e with EvPrint line => Some line | _ => None end) l.

(** The [load_dicom] calls a log records, in order. *)
Definition loads (l : list Event) : list (string * option string) :=
  omap (λ e, match e with EvLoadDicom path ext => Some (path, ext) | _ => None end) l.

(** The [split_volume] calls a log records, in order. *)
Definition splits (l : list Event) : list (Volume S * Z) :=
  omap (λ e, match e with EvSplitVolume volume echos => Some (volume, echos) | _ => None end) l.

(** The [os.makedirs] calls a log records, in order. *)
Definition makedirs_calls (l : list Event) : list string :=
  omap (λ e, match e with EvMakedirs path => Some path | _ => None end) l.

(** The [get_tissue_t2] calls a log records, in order. *)
Definition summary_calls (l : list Event) : list (T2Map S * Volume S * string) :=
  omap (λ e, match e with
             | EvGetTissueT2 t2_map mask tissue => Some (t2_map, mask, tissue)
             | _ => None
             end) l.

(** The progress line of line 32. *)
Definition progress_line (tissue : string) : string :=
  "Segmenting " +:+ tissue +:+ "...".

(** An event of the segmentation loop. *)
Definition is_loop_event (e : Event) : bool :=
  match e with
  | EvPrint _ | EvGenerateMask _ _ | EvWrite3d _ _ => true
  | _ => false
  end.

(** Lines 108-133 pass: a dicom path is given and is a directory, the save
    path has a value (its own or the default) and is a directory or one
    that [os.makedirs] creates, and [--t2] comes with [--dess]. *)
Definition validated (argv : CommandLine) (w : World) : bool :=
  match arg_dicom argv, args_save (parser_parse_args argv) with
  | Some dicom_path, Some save =>
      bool_decide (fs w !! dicom_path = Some Dir) &&
      save_dir_ready (resolve_save_path save dicom_path) w &&
      negb (negb (arg_dess argv) && arg_t2 argv)
  | _, _ => false
  end.

(** How [generate_mask] stops before its loop: the exception and the
    events logged. *)
Definition early_stop (w : World) (dicom_path : string) (dicom_ext : option string)
    (echos : Z) (e : exn) (new : list Event) : Prop :=
  (svc_load_dicom S (fs w) dicom_path dicom_ext = Raise e ∧
   new = [EvLoadDicom dicom_path dicom_ext]) ∨
  (∃ loaded,
      svc_load_dicom S (fs w) dicom_path dicom_ext = Return loaded ∧
      new = [EvLoadDicom dicom_path dicom_ext; EvSplitVolume loaded.1 echos] ∧
      (svc_split_volume S loaded.1 echos = Raise e ∨
       svc_split_volume S loaded.1 echos = Return [] ∧
       e = IndexError "list index out of range")) ∨
  (∃ loaded first others,
      svc_load_dicom S (fs w) dicom_path dicom_ext = Return loaded ∧
      svc_split_volume S loaded.1 echos = Return (first :: others) ∧
      svc_whiten_volume S first = Raise e ∧
      new = [EvLoadDicom dicom_path dicom_ext; EvSplitVolume loaded.1 echos;
             EvWhitenVolume first]).

(** What the loop adds to the log after the tissues of [pre]: nothing when
    it is over, the events of the attempt when the next tissue stops it. *)
Definition stopped_at (volume : Volume S) (rest : list string) : list Event :=
  match rest with
  | [] => []
  | tissue :: _ => attempt_events volume tissue
  end.

(** An event of the T2 flow. *)
Definition is_t2_flow_event (e : Event) : bool :=
  match e with
  | EvPrint _ | EvLoadDicom _ _ | EvCalcT2Map _ _ | EvGetTissueT2 _ _ _ => true
  | _ => false
  end.

(** The summary call for an entry of the mask mapping. *)
Definition summary_call_of (t2_map : T2Map S) (entry : string * Volume S)
  : T2Map S * Volume S * string :=
  (t2_map, entry.2, entry.1).

(** ** Dictionaries *)

Lemma dict_keys_set {V} (k : string) (v : V) (d : Dict V) (k' : string) :
  k' ∈ dict_keys (dict_set k v d) ↔ k' = k ∨ k' ∈ dict_keys d.
Proof.
  unfold dict_keys. induction d as [|[k0 v0] d IH]; simpl.
  - rewrite list_elem_of_singleton, elem_of_nil. tauto.
  - destruct (decide (k = k0)) as [->|Hne]; simpl.
    + rewrite !elem_of_cons. tauto.
    + rewrite !elem_of_cons, IH. tauto.
Qed.

Lemma dict_keys_set_fresh {V} (k : string) (v : V) (d : Dict V) :
  k ∉ dict_keys d → dict_keys (dict_set k v d) = dict_keys d ++ [k].
Proof.
  unfold dict_keys. induction d as [|[k0 v0] d IH]; simpl; intros Hk; [done|].
  rewrite not_elem_of_cons in Hk. destruct Hk as [Hne Hk].
  rewrite decide_False by done. simpl. f_equal. by apply IH.
Qed.

Lemma dict_get_set {V} (k k' : string) (v : V) (d : Dict V) :
  dict_get k' (dict_set k v d) = if decide (k' = k) then Some v else dict_get k' d.
Proof.
  induction d as [|[k0 v0] d IH]; simpl.
  - by destruct (decide (k' = k)).
  - destruct (decide (k = k0)) as [->|Hne]; simpl.
    + by destruct (decide (k' = k0)).
    + destruct (decide (k' = k0)) as [->|Hne'].
      * by rewrite decide_False by done.
      * done.
Qed.

Lemma dict_get_is_Some {V} (k : string) (d : Dict V) :
  k ∈ dict_keys d → is_Some (dict_get k d).
Proof.
  unfold dict_keys. induction d as [|[k0 v0] d IH]; simpl; intros Hk.
  - by apply elem_of_nil in Hk.
  - destruct (decide (k = k0)); [by eexists|].
    apply IH. apply elem_of_cons in Hk as [?|?]; done.
Qed.

Lemma dict_keys_update {V} (kvs : list (string * V)) (d : Dict V) (k : string) :
  k ∈ dict_keys (dict_update d kvs) ↔ k ∈ dict_keys d ∨ k ∈ kvs.*1.
Proof.
  revert d. induction kvs as [|[k0 v0] kvs IH]; intros d; simpl.
  - rewrite elem_of_nil. tauto.
  - unfold dict_update in *. simpl.
    rewrite IH, dict_keys_set, elem_of_cons. tauto.
Qed.

Lemma dict_keys_update_fresh {V} (kvs : list (string * V)) (d : Dict V) :
  NoDup (dict_keys d ++ kvs.*1) →
  dict_keys (dict_update d kvs) = dict_keys d ++ kvs.*1.
Proof.
  revert d. induction kvs as [|[k0 v0] kvs IH]; intros d Hnd; simpl.
  - by rewrite app_nil_r.
  - unfold dict_update in *. simpl in *.
    assert (k0 ∉ dict_keys d) as Hfresh.
    { apply NoDup_app in Hnd as (_ & Hdis & _).
      intros Hin. apply (Hdis _ Hin). apply elem_of_cons. by left. }
    rewrite IH; rewrite dict_keys_set_fresh by done; by rewrite <- app_assoc.
Qed.

(** ** The segmentation loop *)

Lemma with_log_id (w : World) : with_log w (log w) = w.
Proof. by destruct w. Qed.

Lemma segmented_nil volume save_path (w : World) :
  segmented volume save_path [] w = w.
Proof. destruct w. unfold segmented. simpl. by rewrite app_nil_r. Qed.

Lemma segmented_cons volume save_path tm done (w : World) :
  segmented volume save_path (tm :: done) w
  = segmented volume save_path done (segmented volume save_path [tm] w).
Proof.
  unfold segmented. simpl. f_equal.
  by rewrite <- !app_assoc.
Qed.

Lemma log_with_log (w : World) l : log (with_log w l) = l.
Proof. done. Qed.

Lemma log_segmented volume save_path done (w : World) :
  log (segmented volume save_path done w)
  = log w ++ concat (iteration_events volume save_path <$> done).
Proof. done. Qed.

Lemma segmented_BATCH_SIZE volume save_path done (w : World) :
  BATCH_SIZE (segmented volume save_path done w) = BATCH_SIZE w.
Proof. done. Qed.

(** One iteration whose mask passes the assertion. *)
Lemma generate_mask_body_ok volume save_path tissue mask (w : World) masks :
  segments_ok (BATCH_SIZE w) volume tissue mask →
  generate_mask_body volume save_path tissue (w, masks)
  = ((segmented volume save_path [(tissue, mask)] w, dict_set tissue mask masks),
     Return tt).
Proof.
  intros [Hsvc Hshape].
  unfold generate_mask_body, bind, lift, print, models_generate_mask, call, emit, bind.
  simpl. rewrite Hsvc. simpl.
  unfold py_assert. rewrite bool_decide_eq_true_2 by done.
  unfold ret, segmented. simpl. by rewrite <- !app_assoc.
Qed.

(** One iteration in which the Segmentation Service raises. *)
Lemma generate_mask_body_raise volume save_path tissue e (w : World) masks :
  svc_generate_mask S (BATCH_SIZE w) volume tissue = Raise e →
  generate_mask_body volume save_path tissue (w, masks)
  = ((with_log w (log w ++ attempt_events volume tissue), masks), Raise e).
Proof.
  intros Hsvc.
  unfold generate_mask_body, bind, lift, print, models_generate_mask, call, emit, bind.
  simpl. rewrite Hsvc. unfold with_log. simpl. by rewrite <- !app_assoc.
Qed.

(** One iteration whose mask fails the assertion. *)
Lemma generate_mask_body_assert volume save_path tissue mask (w : World) masks :
  svc_generate_mask S (BATCH_SIZE w) volume tissue = Return mask →
  shape S volume ≠ shape S mask →
  generate_mask_body volume save_path tissue (w, masks)
  = ((with_log w (log w ++ attempt_events volume tissue), masks), Raise AssertionError).
Proof.
  intros Hsvc Hshape.
  unfold generate_mask_body, bind, lift, print, models_generate_mask, call, emit, bind.
  simpl. rewrite Hsvc. simpl.
  unfold py_assert. rewrite bool_decide_eq_false_2 by done.
  unfold raise, with_log. simpl. by rewrite <- !app_assoc.
Qed.

Lemma for_in_cons {Σ A} (x : A) (xs : list A) (body : A → M Σ unit) (s : Σ) :
  for_in (x :: xs) body s
  = match body x s with
    | (s', Return _) => for_in xs body s'
    | (s', Raise e) => (s', Raise e)
    end.
Proof. done. Qed.

(** The iterations for a prefix of tissues that all pass. *)
Lemma loop_completed volume save_path pre ms rest (w : World) masks :
  Forall2 (segments_ok (BATCH_SIZE w) volume) pre ms →
  for_in (pre ++ rest) (generate_mask_body volume save_path) (w, masks)
  = for_in rest (generate_mask_body volume save_path)
      (segmented volume save_path (zip pre ms) w, dict_update masks (zip pre ms)).
Proof.
  intros Hok. remember (BATCH_SIZE w) as batch eqn:Hbatch.
  revert w masks Hbatch.
  induction Hok as [|t m pre ms Htm Hok IH]; intros w masks Hbatch.
  - simpl. by rewrite segmented_nil.
  - change ((t :: pre) ++ rest) with (t :: (pre ++ rest)).
    rewrite for_in_cons.
    rewrite (generate_mask_body_ok _ _ _ m) by (by rewrite <- Hbatch).
    rewrite IH by done.
    simpl zip. rewrite (segmented_cons _ _ (t, m) (zip pre ms)). reflexivity.
Qed.

(** Every run of the loop: a prefix of tissues completes; then the loop
    is over, or the next tissue stops it at the segmentation call or at
    the assertion. *)
Lemma loop_cases volume save_path tissue_strs (w : World) masks :
  ∃ pre ms rest,
    tissue_strs = pre ++ rest ∧
    Forall2 (segments_ok (BATCH_SIZE w) volume) pre ms ∧
    let w' := segmented volume save_path (zip pre ms) w in
    let masks' := dict_update masks (zip pre ms) in
    match rest with
    | [] =>
        for_in tissue_strs (generate_mask_body volume save_path) (w, masks)
        = ((w', masks'), Return tt)
    | tissue :: _ =>
        ∃ e,
          for_in tissue_strs (generate_mask_body volume save_path) (w, masks)
          = ((with_log w' (log w' ++ attempt_events volume tissue), masks'), Raise e) ∧
          (svc_generate_mask S (BATCH_SIZE w) volume tissue = Raise e ∨
           ∃ mask, svc_generate_mask S (BATCH_SIZE w) volume tissue = Return mask ∧
                   shape S volume ≠ shape S mask ∧ e = AssertionError)
    end.
Proof.
  revert w masks. induction tissue_strs as [|t ts IH]; intros w masks.
  - exists [], [], []. split_and!; [done|constructor|]. simpl.
    by rewrite segmented_nil.
  - destruct (svc_generate_mask S (BATCH_SIZE w) volume t) as [m|e] eqn:Hsvc.
    + destruct (decide (shape S volume = shape S m)) as [Hshape|Hshape].
      * destruct (IH (segmented volume save_path [(t, m)] w) (dict_set t m masks))
          as (pre & ms & rest & -> & Hok & Hrun).
        exists (t :: pre), (m :: ms), rest.
        split_and!; [done|by constructor|].
        simpl zip. rewrite (segmented_cons _ _ (t, m) (zip pre ms)).
        change (dict_update masks ((t, m) :: zip pre ms))
          with (dict_update (dict_set t m masks) (zip pre ms)).
        change ((t :: pre) ++ rest) with (t :: (pre ++ rest)).
        rewrite for_in_cons, (generate_mask_body_ok _ _ _ m) by done.
        exact Hrun.
      * exists [], [], (t :: ts). split_and!; [done|constructor|].
        exists AssertionError. simpl zip. rewrite segmented_nil. split; [|eauto].
        rewrite for_in_cons.
        by rewrite (generate_mask_body_assert _ _ _ m).
    + exists [], [], (t :: ts). split_and!; [done|constructor|].
      exists e. simpl zip. rewrite segmented_nil. split; [|eauto].
      rewrite for_in_cons.
      by rewrite (generate_mask_body_raise _ _ _ e).
Qed.

(** ** [generate_mask] as a whole *)

Lemma generate_mask_preprocessed dicom_path save_path tissue_strs dicom_ext echos
    (w : World) loaded first volume :
  preprocessed w dicom_path dicom_ext echos loaded first volume →
  generate_mask dicom_path save_path tissue_strs dicom_ext echos w
  = finish (for_in tissue_strs (generate_mask_body volume save_path)
              (with_log w (log w ++ preamble_events dicom_path dicom_ext echos loaded.1 first),
               dict_empty)).
Proof.
  intros (Hload & [others Hsplit] & Hwhiten).
  unfold generate_mask, utils_load_dicom, utils_split_volume, utils_whiten_volume,
    with_local, call, bind, emit, lift, print, emit.
  simpl. rewrite Hload. simpl. rewrite Hsplit. simpl. rewrite Hwhiten. simpl.
  unfold with_log, finish. simpl. by rewrite <- !app_assoc.
Qed.

(** Every run of [generate_mask] either gets to its loop or stops while
    loading, splitting or whitening. *)
Lemma generate_mask_cases dicom_path save_path tissue_strs dicom_ext echos (w : World) :
  (∃ loaded first volume,
      preprocessed w dicom_path dicom_ext echos loaded first volume) ∨
  (∃ e new,
      generate_mask dicom_path save_path tissue_strs dicom_ext echos w
      = (with_log w (log w ++ new), Raise e) ∧
      Forall (λ ev, is_preprocessing ev = true) new ∧
      ∀ loaded first volume,
        ¬ preprocessed w dicom_path dicom_ext echos loaded first volume).
Proof.
  destruct (svc_load_dicom S (fs w) dicom_path dicom_ext) as [loaded|e] eqn:Hload.
  - destruct (svc_split_volume S loaded.1 echos) as [[|first others]|e] eqn:Hsplit.
    + right. eexists _, [EvLoadDicom dicom_path dicom_ext; EvSplitVolume loaded.1 echos].
      split_and!; [|by repeat constructor|intros ??? (Hl & [? Hs] & Hw); congruence].
      unfold generate_mask, utils_load_dicom, utils_split_volume, call, bind, emit.
      simpl. rewrite Hload. simpl. rewrite Hsplit. simpl.
      unfold with_log, raise. simpl. by rewrite <- !app_assoc.
    + destruct (svc_whiten_volume S first) as [volume|e] eqn:Hwhiten.
      * left. exists loaded, first, volume. split_and!; eauto.
      * right. eexists _, [EvLoadDicom dicom_path dicom_ext;
                          EvSplitVolume loaded.1 echos; EvWhitenVolume first].
        split_and!; [|by repeat constructor|intros ??? (Hl & [? Hs] & Hw); congruence].
        unfold generate_mask, utils_load_dicom, utils_split_volume,
          utils_whiten_volume, call, bind, emit.
        simpl. rewrite Hload. simpl. rewrite Hsplit. simpl. rewrite Hwhiten.
        unfold with_log. simpl. by rewrite <- !app_assoc.
    + right. eexists _, [EvLoadDicom dicom_path dicom_ext; EvSplitVolume loaded.1 echos].
      split_and!; [|by repeat constructor|intros ??? (Hl & [? Hs] & Hw); congruence].
      unfold generate_mask, utils_load_dicom, utils_split_volume, call, bind, emit.
      simpl. rewrite Hload. simpl. rewrite Hsplit.
      unfold with_log. simpl. by rewrite <- !app_assoc.
  - right. eexists _, [EvLoadDicom dicom_path dicom_ext].
    split_and!; [|by repeat constructor|intros ??? (Hl & [? Hs] & Hw); congruence].
    unfold generate_mask, utils_load_dicom, call, bind, emit.
    simpl. rewrite Hload. done.
Qed.

Lemma writes_app (l1 l2 : list Event) : writes (l1 ++ l2) = writes l1 ++ writes l2.
Proof. apply omap_app. Qed.

Lemma writes_iterations volume save_path (done : list (string * Volume S)) :
  writes (concat (iteration_events volume save_path <$> done))
  = (λ tm, (mask_path save_path tm.1, tm.2)) <$> done.
Proof.
  induction done as [|[t m] done IH]; [done|].
  rewrite !fmap_cons. change (concat (?l :: ?ls)) with (l ++ concat ls).
  rewrite writes_app, IH. reflexivity.
Qed.

Lemma writes_preprocessing (new : list Event) :
  Forall (λ ev, is_preprocessing ev = true) new → writes new = [].
Proof.
  induction 1 as [|ev new Hev _ IH]; [done|].
  destruct ev; try discriminate Hev; exact IH.
Qed.

Lemma segmented_fs_keeps volume save_path done (w : World) (path : string) :
  fs w !! path = Some File →
  fs (segmented volume save_path done w) !! path = Some File.
Proof.
  unfold segmented. simpl. generalize (fs w) as disk.
  induction done as [|[t m] done IH]; intros disk Hdisk; simpl; [done|].
  apply IH. rewrite lookup_insert. by case_decide.
Qed.

Lemma segmented_fs_written volume save_path done (w : World) (tissue : string) :
  tissue ∈ done.*1 →
  fs (segmented volume save_path done w) !! mask_path save_path tissue = Some File.
Proof.
  revert w. induction done as [|[t m] done IH]; intros w Hin; simpl in Hin.
  - by apply elem_of_nil in Hin.
  - rewrite segmented_cons.
    destruct (decide (tissue ∈ done.*1)) as [Hlater|Hnow]; [by apply IH|].
    apply elem_of_cons in Hin as [->|?]; [|done].
    apply segmented_fs_keeps. simpl. apply lookup_insert_eq.
Qed.

(** The disk outside the mask files of [done] is as it was. *)
Lemma segmented_fs_other volume save_path done (w : World) (path : string) :
  path ∉ mask_path save_path <$> done.*1 →
  fs (segmented volume save_path done w) !! path = fs w !! path.
Proof.
  unfold segmented. simpl. generalize (fs w) as disk.
  induction done as [|[t m] done IH]; intros disk Hout; simpl in *; [done|].
  rewrite not_elem_of_cons in Hout. destruct Hout as [Hne Hout].
  rewrite IH by done. by apply lookup_insert_ne.
Qed.

Lemma zip_paths save_path (ts : list string) (ms : list (Volume S)) :
  (λ tm : string * Volume S, (mask_path save_path tm.1, tm.2)) <$> zip ts ms
  = zip (mask_path save_path <$> ts) ms.
Proof.
  revert ms. induction ts as [|t ts IH]; intros [|m ms]; simpl; try done.
  by rewrite IH.
Qed.

(** [generate_mask] returns exactly when preprocessing succeeds and every
    requested tissue's mask passes the assertion. *)
Lemma generate_mask_completes dicom_path save_path tissue_strs dicom_ext echos
    (w : World) loaded first volume ms :
  preprocessed w dicom_path dicom_ext echos loaded first volume →
  Forall2 (segments_ok (BATCH_SIZE w) volume) tissue_strs ms →
  generate_mask dicom_path save_path tissue_strs dicom_ext echos w
  = (segmented volume save_path (zip tissue_strs ms)
       (with_log w (log w ++ preamble_events dicom_path dicom_ext echos loaded.1 first)),
     Return (dict_update dict_empty (zip tissue_strs ms))).
Proof.
  intros Hpre Hok.
  rewrite (generate_mask_preprocessed _ _ _ _ _ _ _ _ _ Hpre).
  rewrite <- (app_nil_r tissue_strs) at 1.
  rewrite (loop_completed _ _ _ ms) by done.
  done.
Qed.

Lemma generate_mask_returned dicom_path save_path tissue_strs dicom_ext echos
    (w w' : World) masks :
  generate_mask dicom_path save_path tissue_strs dicom_ext echos w = (w', Return masks) →
  ∃ loaded first volume ms,
    preprocessed w dicom_path dicom_ext echos loaded first volume ∧
    Forall2 (segments_ok (BATCH_SIZE w) volume) tissue_strs ms ∧
    masks = dict_update dict_empty (zip tissue_strs ms) ∧
    w' = segmented volume save_path (zip tissue_strs ms)
           (with_log w (log w ++ preamble_events dicom_path dicom_ext echos loaded.1 first)).
Proof.
  intros Hrun.
  destruct (generate_mask_cases dicom_path save_path tissue_strs dicom_ext echos w)
    as [(loaded & first & volume & Hpre)|(e & new & Hfail & _ & _)];
    [|congruence].
  exists loaded, first, volume.
  rewrite (generate_mask_preprocessed _ _ _ _ _ _ _ _ _ Hpre) in Hrun.
  set (w0 := with_log w _) in *.
  destruct (loop_cases volume save_path tissue_strs w0 dict_empty)
    as (pre & ms & [|t rest] & Hts & Hok & Hloop); simpl in Hloop.
  - rewrite Hloop in Hrun. simpl in Hrun.
    rewrite app_nil_r in Hts. subst pre.
    exists ms. split_and!; [done|done|congruence|congruence].
  - destruct Hloop as (e & Hloop & _). rewrite Hloop in Hrun. discriminate Hrun.
Qed.

Lemma segmentation_calls_app (l1 l2 : list Event) :
  segmentation_calls (l1 ++ l2) = segmentation_calls l1 ++ segmentation_calls l2.
Proof. apply omap_app. Qed.

Lemma segmentation_calls_iterations volume save_path (done : list (string * Volume S)) :
  segmentation_calls (concat (iteration_events volume save_path <$> done))
  = (λ tm, (volume, tm.1)) <$> done.
Proof.
  induction done as [|[t m] done IH]; [done|].
  rewrite !fmap_cons. change (concat (?l :: ?ls)) with (l ++ concat ls).
  rewrite segmentation_calls_app, IH. reflexivity.
Qed.

Lemma segmentation_calls_preprocessing (new : list Event) :
  Forall (λ ev, is_preprocessing ev = true) new → segmentation_calls new = [].
Proof.
  induction 1 as [|ev new Hev _ IH]; [done|].
  destruct ev; try discriminate Hev; exact IH.
Qed.

(** Every run of [generate_mask]: it stops in preprocessing, or a prefix
    of the tissues completes and then the loop is over or the next tissue
    stops it. *)
Lemma generate_mask_trace dicom_path save_path tissue_strs dicom_ext echos (w : World) :
  (∃ e new,
      generate_mask dicom_path save_path tissue_strs dicom_ext echos w
      = (with_log w (log w ++ new), Raise e) ∧
      Forall (λ ev, is_preprocessing ev = true) new ∧
      ∀ loaded first volume,
        ¬ preprocessed w dicom_path dicom_ext echos loaded first volume) ∨
  (∃ loaded first volume pre ms rest,
      preprocessed w dicom_path dicom_ext echos loaded first volume ∧
      tissue_strs = pre ++ rest ∧
      Forall2 (segments_ok (BATCH_SIZE w) volume) pre ms ∧
      let w1 := segmented volume save_path (zip pre ms)
                  (with_log w (log w ++ preamble_events dicom_path dicom_ext echos
                                          loaded.1 first)) in
      match rest with
      | [] =>
          generate_mask dicom_path save_path tissue_strs dicom_ext echos w
          = (w1, Return (dict_update dict_empty (zip pre ms)))
      | tissue :: _ =>
          ∃ e,
            generate_mask dicom_path save_path tissue_strs dicom_ext echos w
            = (with_log w1 (log w1 ++ attempt_events volume tissue), Raise e) ∧
            (svc_generate_mask S (BATCH_SIZE w) volume tissue = Raise e ∨
             ∃ mask, svc_generate_mask S (BATCH_SIZE w) volume tissue = Return mask ∧
                     shape S volume ≠ shape S mask ∧ e = AssertionError)
      end).
Proof.
  destruct (generate_mask_cases dicom_path save_path tissue_strs dicom_ext echos w)
    as [(loaded & first & volume & Hpre)|Hearly]; [right|by left].
  exists loaded, first, volume.
  rewrite (generate_mask_preprocessed _ _ _ _ _ _ _ _ _ Hpre).
  set (w0 := with_log w _).
  destruct (loop_cases volume save_path tissue_strs w0 dict_empty)
    as (pre & ms & rest & Hts & Hok & Hloop).
  exists pre, ms, rest. split_and!; [done..|].
  destruct rest as [|t rest]; simpl in *.
  - by rewrite Hloop.
  - destruct Hloop as (e & Hloop & He). exists e. by rewrite Hloop.
Qed.

Lemma Forall2_zip_elem {A B} (P : A → B → Prop) (l : list A) (k : list B) x y :
  Forall2 P l k → (x, y) ∈ zip l k → P x y.
Proof.
  induction 1 as [|a b l k Hab _ IH]; simpl; intros Hin.
  - by apply elem_of_nil in Hin.
  - apply elem_of_cons in Hin as [[= -> ->]|Hin]; auto.
Qed.

Lemma calls_of_zip (volume : Volume S) (pre : list string) (ms : list (Volume S)) :
  length pre = length ms →
  (λ tm : string * Volume S, (volume, tm.1)) <$> zip pre ms = (λ t, (volume, t)) <$> pre.
Proof.
  intros Hlen. rewrite <- (fst_zip pre ms) at 2 by lia.
  by rewrite <- list_fmap_compose.
Qed.

(** What a run of [generate_mask] adds to the log: only preprocessing
    events, or the writes of the completed tissues and one segmentation
    call per tissue that was started. *)
Lemma generate_mask_effects dicom_path save_path tissue_strs dicom_ext echos (w : World) :
  ∃ new,
    log (generate_mask dicom_path save_path tissue_strs dicom_ext echos w).1
    = log w ++ new ∧
    ((Forall (λ ev, is_preprocessing ev = true) new ∧
      ∀ loaded first volume,
        ¬ preprocessed w dicom_path dicom_ext echos loaded first volume) ∨
     (∃ loaded first volume pre ms rest,
         preprocessed w dicom_path dicom_ext echos loaded first volume ∧
         tissue_strs = pre ++ rest ∧
         Forall2 (segments_ok (BATCH_SIZE w) volume) pre ms ∧
         writes new = zip (mask_path save_path <$> pre) ms ∧
         segmentation_calls new = (λ t, (volume, t)) <$> (pre ++ take 1 rest))).
Proof.
  destruct (generate_mask_trace dicom_path save_path tissue_strs dicom_ext echos w)
    as [(e & new & Hrun & Hnew & Hnot)
       |(loaded & first & volume & pre & ms & rest & Hpre & Hts & Hok & Hrun)].
  - exists new. rewrite Hrun. split; [done|]. by left.
  - pose proof (Forall2_length _ _ _ Hok) as Hlen.
    set (iters := concat (iteration_events volume save_path <$> zip pre ms)) in *.
    set (pre_evs := preamble_events dicom_path dicom_ext echos loaded.1 first) in *.
    assert (writes (pre_evs ++ iters) = zip (mask_path save_path <$> pre) ms) as Hwr.
    { rewrite writes_app. unfold iters. by rewrite writes_iterations, zip_paths. }
    assert (segmentation_calls (pre_evs ++ iters) = (λ t, (volume, t)) <$> pre) as Hcalls.
    { rewrite segmentation_calls_app. unfold iters.
      by rewrite segmentation_calls_iterations, calls_of_zip. }
    destruct rest as [|t rest']; cbv beta zeta iota in Hrun.
    + exists (pre_evs ++ iters). rewrite Hrun. cbn [fst].
      rewrite log_segmented, log_with_log. fold iters.
      split; [by rewrite <- !app_assoc|]. right.
      exists loaded, first, volume, pre, ms, []. simpl take. rewrite app_nil_r.
      split_and!; try done. by rewrite app_nil_r in Hts.
    + destruct Hrun as (e & Hrun & _).
      exists ((pre_evs ++ iters) ++ attempt_events volume t).
      rewrite Hrun. cbn [fst].
      rewrite log_with_log, log_segmented, log_with_log. fold iters.
      split; [by rewrite <- !app_assoc|]. right.
      exists loaded, first, volume, pre, ms, (t :: rest'). split_and!; [done..| |].
      * rewrite writes_app, Hwr. apply app_nil_r.
      * rewrite segmentation_calls_app, Hcalls, fmap_app. done.
Qed.

Lemma preprocessed_volume (w : World) dicom_path dicom_ext echos
    loaded first volume loaded' first' volume' :
  preprocessed w dicom_path dicom_ext echos loaded first volume →
  preprocessed w dicom_path dicom_ext echos loaded' first' volume' →
  volume' = volume.
Proof.
  intros (Hl & [o Hs] & Hw) (Hl' & [o' Hs'] & Hw'). congruence.
Qed.

(** ** Every run of [generate_mask] *)

Lemma generate_mask_stops dicom_path save_path tissue_strs dicom_ext echos (w : World) :
  (∃ loaded first volume,
      preprocessed w dicom_path dicom_ext echos loaded first volume) ∨
  (∃ e new,
      generate_mask dicom_path save_path tissue_strs dicom_ext echos w
      = (with_log w (log w ++ new), Raise e) ∧
      early_stop w dicom_path dicom_ext echos e new).
Proof.
  unfold early_stop.
  destruct (svc_load_dicom S (fs w) dicom_path dicom_ext) as [loaded|e] eqn:Hload.
  - destruct (svc_split_volume S loaded.1 echos) as [[|first others]|e] eqn:Hsplit.
    + right. eexists _, _. split; [|right; left; exists loaded; eauto].
      unfold generate_mask, utils_load_dicom, utils_split_volume, call, bind, emit.
      simpl. rewrite Hload. simpl. rewrite Hsplit. simpl.
      unfold with_log, raise. simpl. by rewrite <- !app_assoc.
    + destruct (svc_whiten_volume S first) as [volume|e] eqn:Hwhiten.
      * left. exists loaded, first, volume. split_and!; eauto.
      * right. eexists _, _. split; [|right; right; exists loaded, first, others; eauto].
        unfold generate_mask, utils_load_dicom, utils_split_volume,
          utils_whiten_volume, call, bind, emit.
        simpl. rewrite Hload. simpl. rewrite Hsplit. simpl. rewrite Hwhiten.
        unfold with_log. simpl. by rewrite <- !app_assoc.
    + right. eexists _, _. split; [|right; left; exists loaded; eauto].
      unfold generate_mask, utils_load_dicom, utils_split_volume, call, bind, emit.
      simpl. rewrite Hload. simpl. rewrite Hsplit.
      unfold with_log. simpl. by rewrite <- !app_assoc.
  - right. eexists _, _. split; [|left; eauto].
    unfold generate_mask, utils_load_dicom, call, bind, emit.
    simpl. rewrite Hload. done.
Qed.

Lemma early_stop_not_preprocessed (w : World) dicom_path dicom_ext echos e new
    loaded first volume :
  early_stop w dicom_path dicom_ext echos e new →
  ¬ preprocessed w dicom_path dicom_ext echos loaded first volume.
Proof.
  intros Hstop (Hl & [others Hs] & Hw).
  destruct Hstop as [[Hl' _]|[(l & Hl' & _ & [Hs'|[Hs' _]])|(l & f & o & Hl' & Hs' & Hw' & _)]];
    congruence.
Qed.

(** The complete account of a run of [generate_mask]: its outcome, the
    events it logs and the world it leaves. *)
Lemma generate_mask_account dicom_path save_path tissue_strs dicom_ext echos (w : World) :
  (∃ e new,
      generate_mask dicom_path save_path tissue_strs dicom_ext echos w
      = (with_log w (log w ++ new), Raise e) ∧
      early_stop w dicom_path dicom_ext echos e new) ∨
  (∃ loaded first volume pre ms rest r,
      preprocessed w dicom_path dicom_ext echos loaded first volume ∧
      tissue_strs = pre ++ rest ∧
      Forall2 (segments_ok (BATCH_SIZE w) volume) pre ms ∧
      generate_mask dicom_path save_path tissue_strs dicom_ext echos w
      = (with_log (segmented volume save_path (zip pre ms) w)
           (log w ++ preamble_events dicom_path dicom_ext echos loaded.1 first
                  ++ concat (iteration_events volume save_path <$> zip pre ms)
                  ++ stopped_at volume rest), r) ∧
      match rest with
      | [] => r = Return (dict_update dict_empty (zip pre ms))
      | tissue :: _ =>
          ∃ e, r = Raise e ∧
               (svc_generate_mask S (BATCH_SIZE w) volume tissue = Raise e ∨
                ∃ mask, svc_generate_mask S (BATCH_SIZE w) volume tissue = Return mask ∧
                        shape S volume ≠ shape S mask ∧ e = AssertionError)
      end).
Proof.
  destruct (generate_mask_stops dicom_path save_path tissue_strs dicom_ext echos w)
    as [(loaded & first & volume & Hpre)|Hearly]; [right|by left].
  exists loaded, first, volume.
  rewrite (generate_mask_preprocessed _ _ _ _ _ _ _ _ _ Hpre).
  set (w0 := with_log w _).
  destruct (loop_cases volume save_path tissue_strs w0 dict_empty)
    as (pre & ms & rest & Hts & Hok & Hloop).
  exists pre, ms, rest.
  destruct rest as [|t rest]; cbv beta zeta iota in Hloop.
  - eexists. split_and!; [done..| |reflexivity].
    rewrite Hloop. unfold finish, segmented, with_log, stopped_at. simpl.
    by rewrite app_nil_r, <- !app_assoc.
  - destruct Hloop as (e & Hloop & He). eexists. split_and!; [done..| |by exists e].
    rewrite Hloop. unfold finish, segmented, with_log, stopped_at. simpl.
    by rewrite <- !app_assoc.
Qed.

Lemma omap_iterations {A} (f : Event → option A) volume save_path
    (done : list (string * Volume S)) :
  omap f (concat (iteration_events volume save_path <$> done))
  = concat ((λ tm, omap f (iteration_events volume save_path tm)) <$> done).
Proof.
  induction done as [|tm done IH]; [done|].
  rewrite !fmap_cons. change (concat (?l :: ?ls)) with (l ++ concat ls).
  by rewrite omap_app, IH.
Qed.

Lemma concat_nils {A B} (l : list A) : concat ((λ _, @nil B) <$> l) = [].
Proof. by induction l. Qed.

Lemma generate_mask_frame dicom_path save_path tissue_strs dicom_ext echos (w : World) :
  environ (generate_mask dicom_path save_path tissue_strs dicom_ext echos w).1 = environ w ∧
  BATCH_SIZE (generate_mask dicom_path save_path tissue_strs dicom_ext echos w).1
  = BATCH_SIZE w.
Proof.
  destruct (generate_mask_account dicom_path save_path tissue_strs dicom_ext echos w)
    as [(e & new & -> & _)
       |(loaded & first & volume & pre & ms & rest & r & _ & _ & _ & -> & _)]; done.
Qed.

(** The loads, directory creations and splits of a run of [generate_mask]. *)
Lemma generate_mask_readings dicom_path save_path tissue_strs dicom_ext echos (w : World) :
  ∃ new,
    log (generate_mask dicom_path save_path tissue_strs dicom_ext echos w).1
    = log w ++ new ∧
    loads new = [(dicom_path, dicom_ext)] ∧
    makedirs_calls new = [] ∧
    ∀ volume e, (volume, e) ∈ splits new → e = echos.
Proof.
  destruct (generate_mask_account dicom_path save_path tissue_strs dicom_ext echos w)
    as [(e & new & Hrun & Hstop)
       |(loaded & first & volume & pre & ms & rest & r & _ & _ & _ & Hrun & _)].
  - exists new. rewrite Hrun. split; [done|].
    destruct Hstop as [[_ ->]|[(l & _ & -> & _)|(l & f & o & _ & _ & _ & ->)]];
      (split_and!; [done|done|]); intros v e' Hin; simpl in Hin;
      repeat (apply elem_of_cons in Hin as [[= _ ->]|Hin]; [done|]);
      by apply elem_of_nil in Hin.
  - eexists. rewrite Hrun. split; [reflexivity|].
    assert (∀ {A} (f : Event → option A),
              (∀ ev, is_loop_event ev = true → f ev = None) →
              omap f (concat (iteration_events volume save_path <$> zip pre ms)
                      ++ stopped_at volume rest) = []) as Hnone.
    { intros A f Hf. rewrite omap_app, omap_iterations.
      assert (omap f (stopped_at volume rest) = []) as ->.
      { destruct rest; [done|]. simpl. by rewrite !Hf. }
      rewrite app_nil_r.
      rewrite <- (concat_nils (zip pre ms)). f_equal. apply list_fmap_ext.
      intros i tm _. simpl. by rewrite !Hf. }
    unfold loads, makedirs_calls, splits.
    rewrite !(omap_app _ (preamble_events _ _ _ _ _)).
    rewrite !Hnone by (by intros []). simpl.
    split_and!; [done|done|].
    intros v e Hin. apply elem_of_cons in Hin as [[= _ ->]|Hin]; [done|].
    by apply elem_of_nil in Hin.
Qed.

Lemma Forall2_in_l {A B} (P : A → B → Prop) (l : list A) (k : list B) x :
  Forall2 P l k → x ∈ l → ∃ y, P x y.
Proof.
  induction 1 as [|a b l k Hab _ IH]; intros Hin.
  - by apply elem_of_nil in Hin.
  - apply elem_of_cons in Hin as [->|Hin]; eauto.
Qed.

(** The run of [generate_mask] in which the tissues of [pre] pass and the
    mask of the next tissue fails the assertion. *)
Lemma generate_mask_assertion_halts dicom_path save_path dicom_ext echos (w : World)
    loaded first volume pre ms tissue post mask :
  preprocessed w dicom_path dicom_ext echos loaded first volume →
  Forall2 (segments_ok (BATCH_SIZE w) volume) pre ms →
  svc_generate_mask S (BATCH_SIZE w) volume tissue = Return mask →
  shape S volume ≠ shape S mask →
  let w0 := with_log w (log w ++ preamble_events dicom_path dicom_ext echos
                                   loaded.1 first) in
  let w' := with_log (segmented volume save_path (zip pre ms) w0)
              (log (segmented volume save_path (zip pre ms) w0)
               ++ attempt_events volume tissue) in
  for_in (pre ++ tissue :: post) (generate_mask_body volume save_path) (w0, dict_empty)
  = ((w', dict_update dict_empty (zip pre ms)), Raise AssertionError) ∧
  generate_mask dicom_path save_path (pre ++ tissue :: post) dicom_ext echos w
  = (w', Raise AssertionError).
Proof.
  intros Hpre Hok Hsvc Hshape w0 w'.
  assert (for_in (pre ++ tissue :: post) (generate_mask_body volume save_path)
            (w0, dict_empty)
          = ((w', dict_update dict_empty (zip pre ms)), Raise AssertionError)) as Hloop.
  { rewrite (loop_completed _ _ _ ms) by done.
    by rewrite for_in_cons, (generate_mask_body_assert _ _ _ mask). }
  split; [exact Hloop|].
  rewrite (generate_mask_preprocessed _ _ _ _ _ _ _ _ _ Hpre).
  fold w0. by rewrite Hloop.
Qed.

Lemma makedirs_calls_app (l1 l2 : list Event) :
  makedirs_calls (l1 ++ l2) = makedirs_calls l1 ++ makedirs_calls l2.
Proof. apply omap_app. Qed.

Lemma makedirs_calls_iterations volume save_path (done : list (string * Volume S)) :
  makedirs_calls (concat (iteration_events volume save_path <$> done)) = [].
Proof.
  induction done as [|[t m] done IH]; [done|].
  rewrite !fmap_cons. change (concat (?l :: ?ls)) with (l ++ concat ls).
  rewrite makedirs_calls_app, IH. reflexivity.
Qed.

(** A run of [generate_mask] changes the disk at the mask paths of the
    requested tissues only, and writes nowhere else. *)
Lemma generate_mask_disk dicom_path save_path tissue_strs dicom_ext echos (w : World) :
  (∀ path, path ∉ mask_path save_path <$> tissue_strs →
           fs (generate_mask dicom_path save_path tissue_strs dicom_ext echos w).1 !! path
           = fs w !! path) ∧
  ∃ new,
    log (generate_mask dicom_path save_path tissue_strs dicom_ext echos w).1
    = log w ++ new ∧
    makedirs_calls new = [] ∧
    ∀ path mask, (path, mask) ∈ writes new → path ∈ mask_path save_path <$> tissue_strs.
Proof.
  destruct (generate_mask_account dicom_path save_path tissue_strs dicom_ext echos w)
    as [(e & new & Hrun & Hstop)
       |(loaded & first & volume & pre & ms & rest & r & _ & Hts & Hok & Hrun & _)].
  - rewrite Hrun. split; [done|]. exists new. split; [done|].
    destruct Hstop as [[_ ->]|[(l & _ & -> & _)|(l & f & o & _ & _ & _ & ->)]];
      (split; [done|]); intros path mask Hin; by apply elem_of_nil in Hin.
  - pose proof (Forall2_length _ _ _ Hok) as Hlen.
    assert (∀ path, path ∈ mask_path save_path <$> pre →
                    path ∈ mask_path save_path <$> tissue_strs) as Hsub.
    { intros path Hin. rewrite Hts, fmap_app. apply elem_of_app. by left. }
    rewrite Hrun. split.
    + intros path Hpath. cbn [fst with_log fs].
      apply segmented_fs_other. rewrite fst_zip by lia. auto.
    + eexists. split; [reflexivity|]. split.
      * rewrite !makedirs_calls_app, makedirs_calls_iterations. by destruct rest.
      * intros path mask Hin.
        rewrite !writes_app, writes_iterations, zip_paths in Hin.
        assert (writes (stopped_at volume rest) = []) as Hstop by (by destruct rest).
        rewrite Hstop, app_nil_r in Hin. simpl in Hin.
        apply Hsub. by apply elem_of_zip_l in Hin.
Qed.

(** ** The claims about [generate_mask] *)

(** C4. For every tissue processed by [generate_mask]: when the mask the
    Segmentation Service returns has a shape different from the input
    volume's, the iteration stops with an assertion failure and writes no
    file; an iteration that writes a file is one whose mask has the input
    volume's shape.  In a whole run of [generate_mask] the input volume is
    the whitened first sub-volume, and every mask written has its shape.
    And [generate_mask] itself halts there: when the tissues before
    [tissue] pass and the mask of [tissue] has another shape,
    [generate_mask] raises the assertion failure, the files written are
    those of the tissues before it, none of which is [tissue], and no later
    tissue is segmented. *)
Theorem C4_shape_assertion_guards_write volume save_path tissue (w : World) masks :
  (∀ mask,
      svc_generate_mask S (BATCH_SIZE w) volume tissue = Return mask →
      shape S volume ≠ shape S mask →
      ∃ w',
        generate_mask_body volume save_path tissue (w, masks)
        = ((w', masks), Raise AssertionError) ∧
        fs w' = fs w ∧ writes (log w') = writes (log w)) ∧
  (∀ w' masks' r,
      generate_mask_body volume save_path tissue (w, masks) = ((w', masks'), r) →
      writes (log w') ≠ writes (log w) →
      ∃ mask,
        svc_generate_mask S (BATCH_SIZE w) volume tissue = Return mask ∧
        shape S volume = shape S mask ∧
        writes (log w') = writes (log w) ++ [(mask_path save_path tissue, mask)]) ∧
  (∀ dicom_path tissue_strs dicom_ext echos,
      ∃ new,
        log (generate_mask dicom_path save_path tissue_strs dicom_ext echos w).1
        = log w ++ new ∧
        ∀ path mask,
          (path, mask) ∈ writes new →
          ∃ loaded first input t,
            preprocessed w dicom_path dicom_ext echos loaded first input ∧
            t ∈ tissue_strs ∧ path = mask_path save_path t ∧
            svc_generate_mask S (BATCH_SIZE w) input t = Return mask ∧
            shape S input = shape S mask) ∧
  (∀ dicom_path dicom_ext echos loaded first input pre ms post mask,
      preprocessed w dicom_path dicom_ext echos loaded first input →
      Forall2 (segments_ok (BATCH_SIZE w) input) pre ms →
      svc_generate_mask S (BATCH_SIZE w) input tissue = Return mask →
      shape S input ≠ shape S mask →
      ∃ w' new,
        generate_mask dicom_path save_path (pre ++ tissue :: post) dicom_ext echos w
        = (w', Raise AssertionError) ∧
        log w' = log w ++ new ∧
        writes new = zip (mask_path save_path <$> pre) ms ∧
        (tissue ∉ pre) ∧
        segmentation_calls new = (λ t, (input, t)) <$> (pre ++ [tissue])).
Proof.
  split_and!; [| | |intros dicom_path dicom_ext echos loaded first input pre ms post mask
                      Hpre Hok Hsvc Hshape].
  4:{ pose proof (Forall2_length _ _ _ Hok) as Hlen.
      destruct (generate_mask_assertion_halts dicom_path save_path dicom_ext echos w
                  loaded first input pre ms tissue post mask Hpre Hok Hsvc Hshape)
        as [_ Hrun].
      eexists _, _. split_and!; [exact Hrun| | | |].
      - rewrite log_with_log, log_segmented, log_with_log, <- !app_assoc. reflexivity.
      - rewrite !writes_app, writes_iterations, zip_paths. simpl. apply app_nil_r.
      - intros Hin. destruct (Forall2_in_l _ _ _ _ Hok Hin) as (m & Hm & Hshape').
        congruence.
      - rewrite !segmentation_calls_app, segmentation_calls_iterations, calls_of_zip
          by done.
        by rewrite fmap_app. }
  - intros mask Hsvc Hshape. eexists.
    rewrite (generate_mask_body_assert _ _ _ mask) by done.
    split_and!; [done|done|].
    rewrite log_with_log, writes_app. apply app_nil_r.
  - intros w' masks' r Hrun Hwrote.
    destruct (svc_generate_mask S (BATCH_SIZE w) volume tissue) as [mask|e] eqn:Hsvc.
    + destruct (decide (shape S volume = shape S mask)) as [Hshape|Hshape].
      * rewrite (generate_mask_body_ok _ _ _ mask) in Hrun by done.
        injection Hrun as <- <- <-. exists mask. split_and!; [done..|].
        rewrite log_segmented, writes_app.
        by rewrite (writes_iterations _ _ [(tissue, mask)]).
      * rewrite (generate_mask_body_assert _ _ _ mask) in Hrun by done.
        injection Hrun as <- <- <-. exfalso. apply Hwrote.
        rewrite log_with_log, writes_app. apply app_nil_r.
    + rewrite (generate_mask_body_raise _ _ _ e) in Hrun by done.
      injection Hrun as <- <- <-. exfalso. apply Hwrote.
      rewrite log_with_log, writes_app. apply app_nil_r.
  - intros dicom_path tissue_strs dicom_ext echos.
    destruct (generate_mask_effects dicom_path save_path tissue_strs dicom_ext echos w)
      as (new & Hlog & [[Hnew _]
         |(loaded & first & input & pre & ms & rest & Hpre & Hts & Hok & Hwr & _)]).
    + exists new. split; [done|]. intros path mask Hin.
      rewrite (writes_preprocessing _ Hnew) in Hin. by apply elem_of_nil in Hin.
    + exists new. split; [done|]. intros path mask Hin.
      rewrite Hwr, <- zip_paths in Hin.
      apply list_elem_of_fmap in Hin as ([t m] & [= -> ->] & Hin).
      destruct (Forall2_zip_elem _ _ _ _ _ Hok Hin) as [Hsvc Hshape].
      exists loaded, first, input, t. split_and!; [done| |done..].
      rewrite Hts. apply elem_of_app. left. by apply elem_of_zip_l in Hin.
Qed.

(** C6. In every run of [generate_mask], whatever the echo count and the
    tissues requested, each volume handed to the Segmentation Service is
    the whitened sub-volume of index 0 of the echo split of the loaded
    volume; and when preprocessing succeeds the first requested tissue is
    segmented on that volume. *)
Theorem C6_segmentation_input_is_whitened_first_echo
    dicom_path save_path tissue_strs dicom_ext echos (w : World) :
  ∃ new,
    log (generate_mask dicom_path save_path tissue_strs dicom_ext echos w).1
    = log w ++ new ∧
    (∀ volume tissue,
        (volume, tissue) ∈ segmentation_calls new →
        ∃ loaded subvolumes first,
          svc_load_dicom S (fs w) dicom_path dicom_ext = Return loaded ∧
          svc_split_volume S loaded.1 echos = Return subvolumes ∧
          subvolumes !! 0%nat = Some first ∧
          svc_whiten_volume S first = Return volume) ∧
    (∀ loaded first volume tissue rest,
        preprocessed w dicom_path dicom_ext echos loaded first volume →
        tissue_strs = tissue :: rest →
        (volume, tissue) ∈ segmentation_calls new).
Proof.
  destruct (generate_mask_effects dicom_path save_path tissue_strs dicom_ext echos w)
    as (new & Hlog & [[Hnew Hnot]
       |(loaded & first & input & pre & ms & rest & Hpre & Hts & Hok & _ & Hcalls)]);
    exists new; (split; [done|]); split.
  - intros volume tissue Hin.
    rewrite (segmentation_calls_preprocessing _ Hnew) in Hin.
    by apply elem_of_nil in Hin.
  - intros loaded first volume tissue rest Hpre _. by destruct (Hnot _ _ _ Hpre).
  - intros volume tissue Hin. rewrite Hcalls in Hin.
    apply list_elem_of_fmap in Hin as (t & [= -> ->] & _).
    destruct Hpre as (Hload & [others Hsplit] & Hwhiten).
    by exists loaded, (first :: others), first.
  - intros loaded' first' volume tissue rest' Hpre' Hts'.
    rewrite Hcalls, (preprocessed_volume _ _ _ _ _ _ _ _ _ _ Hpre' Hpre).
    apply list_elem_of_fmap. exists tissue. split; [done|].
    rewrite Hts' in Hts. destruct pre as [|t pre]; simpl in Hts.
    + subst rest. simpl. apply list_elem_of_here.
    + injection Hts as <- _. apply list_elem_of_here.
Qed.




(** C10. Mask writing is incremental: when, for requested tissues
    [pre ++ tissue :: post], the assertion fails at [tissue],
    [generate_mask] raises the assertion failure; the files of the tissues
    of [pre] have been written and are on disk, nothing else on the disk
    has changed; and the loop of [generate_mask], which starts with an
    empty mapping in the world [w0] that preprocessing leaves and whose
    result is the result of [generate_mask], stops in the world
    [generate_mask] ends in with the tissues of [pre] as the only keys of
    the mapping. *)
Theorem C10_masks_written_before_failure_remain
    dicom_path save_path dicom_ext echos (w : World)
    loaded first volume pre ms tissue post mask :
  preprocessed w dicom_path dicom_ext echos loaded first volume →
  Forall2 (segments_ok (BATCH_SIZE w) volume) pre ms →
  svc_generate_mask S (BATCH_SIZE w) volume tissue = Return mask →
  shape S volume ≠ shape S mask →
  let w0 := with_log w (log w ++ preamble_events dicom_path dicom_ext echos
                                   loaded.1 first) in
  ∃ w' masks,
    generate_mask dicom_path save_path (pre ++ tissue :: post) dicom_ext echos w
    = (w', Raise AssertionError) ∧
    for_in (pre ++ tissue :: post) (generate_mask_body volume save_path) (w0, dict_empty)
    = ((w', masks), Raise AssertionError) ∧
    generate_mask dicom_path save_path (pre ++ tissue :: post) dicom_ext echos w
    = finish (for_in (pre ++ tissue :: post) (generate_mask_body volume save_path)
                (w0, dict_empty)) ∧
    writes (log w') = writes (log w) ++ zip (mask_path save_path <$> pre) ms ∧
    (∀ t, t ∈ pre → fs w' !! mask_path save_path t = Some File) ∧
    (∀ path, path ∉ mask_path save_path <$> pre → fs w' !! path = fs w !! path) ∧
    masks = dict_update dict_empty (zip pre ms) ∧
    (∀ k, k ∈ dict_keys masks ↔ k ∈ pre) ∧
    (NoDup pre → dict_keys masks = pre).
Proof.
  intros Hpre Hok Hsvc Hshape w0.
  pose proof (Forall2_length _ _ _ Hok) as Hlen.
  assert ((zip pre ms).*1 = pre) as Hfst by (apply fst_zip; lia).
  destruct (generate_mask_assertion_halts dicom_path save_path dicom_ext echos w
              loaded first volume pre ms tissue post mask Hpre Hok Hsvc Hshape)
    as [Hloop Hrun].
  eexists _, _. split_and!; [exact Hrun|exact Hloop| | | | |reflexivity| |].
  - exact (generate_mask_preprocessed _ _ _ _ _ _ _ _ _ Hpre).
  - rewrite log_with_log, log_segmented, log_with_log, <- !app_assoc.
    rewrite !writes_app, writes_iterations, zip_paths. simpl.
    by rewrite app_nil_r.
  - intros t Ht.
    change (fs (segmented volume save_path (zip pre ms) w0)
              !! mask_path save_path t = Some File).
    apply segmented_fs_written. by rewrite Hfst.
  - intros path Hpath.
    change (fs (segmented volume save_path (zip pre ms) w0) !! path = fs w !! path).
    rewrite segmented_fs_other by (by rewrite Hfst). done.
  - intros k. rewrite dict_keys_update, Hfst.
    unfold dict_keys, dict_empty. simpl. rewrite elem_of_nil. tauto.
  - intros Hnd. rewrite dict_keys_update_fresh; rewrite Hfst; done.
Qed.

(** ** [calculate_t2_maps] *)

Lemma dict_get_update {V} (kvs : list (string * V)) (d : Dict V) k v :
  dict_get k (dict_update d kvs) = Some v → dict_get k d = Some v ∨ (k, v) ∈ kvs.
Proof.
  revert d. induction kvs as [|[k0 v0] kvs IH]; intros d Hget.
  - by left.
  - unfold dict_update in *. simpl in Hget.
    destruct (IH _ Hget) as [Hd|Hin]; [|right; by apply elem_of_cons; right].
    rewrite dict_get_set in Hd. destruct (decide (k = k0)) as [->|Hne]; [|by left].
    injection Hd as ->. right. apply list_elem_of_here.
Qed.

Lemma calculate_t2_maps_body_ok masks t2_map tissue mask summary (w : World) t2_vals :
  dict_get tissue masks = Some mask →
  svc_get_tissue_t2 S t2_map mask tissue = Return summary →
  calculate_t2_maps_body masks t2_map tissue (w, t2_vals)
  = ((with_log w (log w ++ [EvGetTissueT2 t2_map mask tissue]),
      dict_set tissue summary t2_vals), Return tt).
Proof.
  intros Hget Hsvc.
  unfold calculate_t2_maps_body, dict_getitem, dess_utils_get_tissue_t2,
    bind, lift, call, emit, bind.
  rewrite Hget. simpl. by rewrite Hsvc.
Qed.

Lemma calculate_t2_maps_body_raise masks t2_map tissue mask e (w : World) t2_vals :
  dict_get tissue masks = Some mask →
  svc_get_tissue_t2 S t2_map mask tissue = Raise e →
  calculate_t2_maps_body masks t2_map tissue (w, t2_vals)
  = ((with_log w (log w ++ [EvGetTissueT2 t2_map mask tissue]), t2_vals), Raise e).
Proof.
  intros Hget Hsvc.
  unfold calculate_t2_maps_body, dict_getitem, dess_utils_get_tissue_t2,
    bind, lift, call, emit, bind.
  rewrite Hget. simpl. by rewrite Hsvc.
Qed.

(** Every run of the summary loop over keys of [masks]. *)
Lemma t2_loop_cases masks t2_map (ks : list string) (w : World) t2_vals :
  (∀ k, k ∈ ks → k ∈ dict_keys masks) →
  ∃ pre ss rest tail,
    ks = pre ++ rest ∧
    Forall2 (summarised masks t2_map) pre ss ∧
    Forall (summary_event masks t2_map) tail ∧
    match rest with
    | [] =>
        for_in ks (calculate_t2_maps_body masks t2_map) (w, t2_vals)
        = ((with_log w (log w ++ tail), dict_update t2_vals (zip pre ss)), Return tt)
    | k :: _ =>
        ∃ e mask,
          dict_get k masks = Some mask ∧
          svc_get_tissue_t2 S t2_map mask k = Raise e ∧
          for_in ks (calculate_t2_maps_body masks t2_map) (w, t2_vals)
          = ((with_log w (log w ++ tail), dict_update t2_vals (zip pre ss)), Raise e)
    end.
Proof.
  revert w t2_vals. induction ks as [|k ks IH]; intros w t2_vals Hkeys.
  - exists [], [], [], []. split_and!; [done|constructor|constructor|].
    simpl. by rewrite app_nil_r, with_log_id.
  - destruct (dict_get_is_Some k masks) as [mask Hget];
      [apply Hkeys, list_elem_of_here|].
    assert (summary_event masks t2_map (EvGetTissueT2 t2_map mask k)) as Hev
      by (by exists mask, k).
    destruct (svc_get_tissue_t2 S t2_map mask k) as [summary|e] eqn:Hsvc.
    + destruct (IH (with_log w (log w ++ [EvGetTissueT2 t2_map mask k]))
                  (dict_set k summary t2_vals))
        as (pre & ss & rest & tail & -> & Hok & Htail & Hrun).
      { intros k' Hk'. apply Hkeys. by apply elem_of_cons; right. }
      exists (k :: pre), (summary :: ss), rest, (EvGetTissueT2 t2_map mask k :: tail).
      split_and!; [done|constructor; [by exists mask|done]|by constructor|].
      change ((k :: pre) ++ rest) with (k :: (pre ++ rest)).
      rewrite for_in_cons, (calculate_t2_maps_body_ok _ _ _ mask summary) by done.
      rewrite log_with_log, <- app_assoc in Hrun. exact Hrun.
    + exists [], [], (k :: ks), [EvGetTissueT2 t2_map mask k].
      split_and!; [done|constructor|by constructor|].
      exists e, mask. split_and!; [done..|].
      by rewrite for_in_cons, (calculate_t2_maps_body_raise _ _ _ mask e).
Qed.

Lemma calculate_t2_maps_loaded dicom_path save_path dicom_ext masks (w : World)
    loaded t2_map :
  svc_load_dicom S (fs w) dicom_path dicom_ext = Return loaded →
  svc_calc_dess_t2_map S loaded.1 loaded.2 = Return t2_map →
  calculate_t2_maps dicom_path save_path dicom_ext masks w
  = finish (for_in (dict_keys masks) (calculate_t2_maps_body masks t2_map)
              (with_log w (log w ++ t2_preamble_events dicom_path dicom_ext loaded),
               dict_empty)).
Proof.
  intros Hload Hcalc.
  unfold calculate_t2_maps, print, utils_load_dicom, dess_utils_calc_dess_t2_map,
    with_local, call, bind, emit.
  simpl. rewrite Hload. simpl. rewrite Hcalc.
  unfold with_log, finish, t2_preamble_events. simpl. by rewrite <- !app_assoc.
Qed.

Lemma calculate_t2_maps_returned dicom_path save_path dicom_ext masks (w w' : World)
    t2_vals :
  calculate_t2_maps dicom_path save_path dicom_ext masks w = (w', Return t2_vals) →
  ∃ loaded t2_map,
    svc_load_dicom S (fs w) dicom_path dicom_ext = Return loaded ∧
    svc_calc_dess_t2_map S loaded.1 loaded.2 = Return t2_map.
Proof.
  unfold calculate_t2_maps, print, utils_load_dicom, dess_utils_calc_dess_t2_map,
    with_local, call, bind, emit.
  simpl.
  destruct (svc_load_dicom S (fs w) dicom_path dicom_ext) as [loaded|e] eqn:Hload;
    [|done].
  simpl.
  destruct (svc_calc_dess_t2_map S loaded.1 loaded.2) as [t2_map|e] eqn:Hcalc;
    [|done].
  intros _. by exists loaded, t2_map.
Qed.

(** C7. Whenever [calculate_t2_maps] returns a mapping for a mask
    mapping, the two mappings have the same keys (in the same order, a
    dictionary's keys being distinct), each summary is extracted with the
    tissue's own mask, and the T2 map used is the one computed from the
    volume and the reference DICOM exactly as [load_dicom] returned them:
    the flow makes no split and no whitening call.  It does return when
    loading, the T2 fit and every summary call succeed. *)
Theorem C7_t2_keys_match_masks_and_raw_volume
    dicom_path save_path dicom_ext masks (w : World) :
  (∀ w' t2_vals,
      calculate_t2_maps dicom_path save_path dicom_ext masks w = (w', Return t2_vals) →
      (∀ k, k ∈ dict_keys t2_vals ↔ k ∈ dict_keys masks) ∧
      (NoDup (dict_keys masks) → dict_keys t2_vals = dict_keys masks) ∧
      ∃ loaded t2_map tail,
        svc_load_dicom S (fs w) dicom_path dicom_ext = Return loaded ∧
        svc_calc_dess_t2_map S loaded.1 loaded.2 = Return t2_map ∧
        log w' = log w ++ t2_preamble_events dicom_path dicom_ext loaded ++ tail ∧
        Forall (summary_event masks t2_map) tail ∧
        ∀ k summary, dict_get k t2_vals = Some summary → summarised masks t2_map k summary) ∧
  (∀ loaded t2_map,
      svc_load_dicom S (fs w) dicom_path dicom_ext = Return loaded →
      svc_calc_dess_t2_map S loaded.1 loaded.2 = Return t2_map →
      (∀ k mask, dict_get k masks = Some mask →
                 ∃ summary, svc_get_tissue_t2 S t2_map mask k = Return summary) →
      ∃ w' t2_vals,
        calculate_t2_maps dicom_path save_path dicom_ext masks w = (w', Return t2_vals)).
Proof.
  split.
  - intros w' t2_vals Hrun.
    destruct (calculate_t2_maps_returned _ _ _ _ _ _ _ Hrun)
      as (loaded & t2_map & Hload & Hcalc).
    rewrite (calculate_t2_maps_loaded _ _ _ _ _ _ _ Hload Hcalc) in Hrun.
    set (w0 := with_log w _) in *.
    destruct (t2_loop_cases masks t2_map (dict_keys masks) w0 dict_empty)
      as (pre & ss & [|k rest] & tail & Hks & Hok & Htail & Hloop); [done| |].
    + rewrite Hloop in Hrun. unfold finish in Hrun. injection Hrun as <- <-.
      rewrite app_nil_r in Hks. subst pre.
      pose proof (Forall2_length _ _ _ Hok) as Hlen.
      assert ((zip (dict_keys masks) ss).*1 = dict_keys masks) as Hfst
        by (apply fst_zip; lia).
      split_and!.
      * intros k. rewrite dict_keys_update, Hfst.
        unfold dict_empty. rewrite elem_of_nil. tauto.
      * intros Hnd. rewrite dict_keys_update_fresh; rewrite Hfst; done.
      * exists loaded, t2_map, tail. split_and!; [done..| |done|].
        { by rewrite log_with_log, <- app_assoc. }
        intros k summary Hget.
        apply dict_get_update in Hget as [Hget|Hin]; [done|].
        exact (Forall2_zip_elem _ _ _ _ _ Hok Hin).
    + destruct Hloop as (e & mask & _ & _ & Hloop). rewrite Hloop in Hrun.
      discriminate Hrun.
  - intros loaded t2_map Hload Hcalc Hsum.
    rewrite (calculate_t2_maps_loaded _ _ _ _ _ _ _ Hload Hcalc).
    set (w0 := with_log w _).
    destruct (t2_loop_cases masks t2_map (dict_keys masks) w0 dict_empty)
      as (pre & ss & [|k rest] & tail & Hks & Hok & Htail & Hloop); [done| |].
    + rewrite Hloop. by eexists _, _.
    + destruct Hloop as (e & mask & Hget & Hsvc & _).
      destruct (Hsum _ _ Hget) as [summary Hret]. congruence.
Qed.

(** ** [parse_args] *)

Lemma with_gpu_same gpu (w : World) :
  fs (with_gpu gpu w) = fs w ∧ log (with_gpu gpu w) = log w ∧
  BATCH_SIZE (with_gpu gpu w) = BATCH_SIZE w.
Proof. by destruct gpu. Qed.

Lemma parse_args_gpu (gpu : option string) (k : unit → M World unit) (w : World) :
  bind (match gpu with
        | Some gpu => os_environ_setitem "CUDA_VISIBLE_DEVICES" gpu
        | None => ret tt
        end) k w
  = k tt (with_gpu gpu w).
Proof. by destruct gpu. Qed.

Lemma create_dirs_keeps (paths : list string) (disk : gmap string Node) path node :
  disk !! path = Some node → create_dirs paths disk !! path = Some node.
Proof.
  revert disk. induction paths as [|p paths IH]; intros disk Hdisk; [done|].
  apply IH. unfold create_dir.
  destruct (disk !! p) eqn:Hp; [done|].
  rewrite lookup_insert_ne; [done|]. intros ->. congruence.
Qed.

(** Lines 123-124 followed by [k]. *)
Lemma save_dir_step_bind {A} (save_path : string) (k : M World A) (w : World) :
  bind (os_path_isdir save_path)
    (λ isdir, bind (if negb isdir then os_makedirs save_path else ret tt) (λ _, k)) w
  = match save_dir_step save_path w with
    | (w2, Return _) => k w2
    | (w2, Raise e) => (w2, Raise e)
    end.
Proof.
  unfold save_dir_step, bind at 1, os_path_isdir.
  destruct (fs w !! save_path) as [[|]|] eqn:Hs.
  - rewrite bool_decide_eq_true_2 by done. done.
  - rewrite bool_decide_eq_false_2 by done. cbn [negb].
    unfold os_makedirs, bind, emit. cbn [fs]. by rewrite Hs.
  - rewrite bool_decide_eq_false_2 by done. cbn [negb].
    unfold os_makedirs, bind, emit. cbn [fs]. rewrite Hs. cbv zeta.
    by destruct (sys_makedirs S (fs w) save_path).2 as [[]|e].
Qed.

(** What lines 123-124 leave alone, and what they log. *)
Lemma save_dir_step_frame (save_path : string) (w : World) :
  environ (save_dir_step save_path w).1 = environ w ∧
  BATCH_SIZE (save_dir_step save_path w).1 = BATCH_SIZE w ∧
  (log (save_dir_step save_path w).1 = log w ∨
   log (save_dir_step save_path w).1 = log w ++ [EvMakedirs save_path]).
Proof.
  unfold save_dir_step.
  destruct (fs w !! save_path) as [[|]|]; [by auto|by auto|].
  destruct (sys_makedirs S (fs w) save_path).2 as [[]|e]; by auto.
Qed.

Lemma save_dir_step_log (save_path : string) (w : World) :
  ∃ new, log (save_dir_step save_path w).1 = log w ++ new ∧
         Forall (λ ev, is_makedirs ev = true) new.
Proof.
  destruct (save_dir_step_frame save_path w) as (_ & _ & [Hlog|Hlog]).
  - exists []. rewrite app_nil_r. by split.
  - exists [EvMakedirs save_path]. split; [done|by repeat constructor].
Qed.

Lemma save_dir_step_ready (save_path : string) (w : World) :
  save_dir_ready save_path w
  = match (save_dir_step save_path w).2 with Return _ => true | Raise _ => false end.
Proof.
  unfold save_dir_ready, save_dir_step.
  destruct (fs w !! save_path) as [[|]|]; [done|done|].
  by destruct (sys_makedirs S (fs w) save_path).2 as [[]|e].
Qed.

Lemma save_dir_step_gpu (gpu : option string) (save_path : string) (w : World) :
  fs (save_dir_step save_path (with_gpu gpu w)).1 = fs (save_dir_step save_path w).1 ∧
  (save_dir_step save_path (with_gpu gpu w)).2 = (save_dir_step save_path w).2 ∧
  log (save_dir_step save_path (with_gpu gpu w)).1 = log (save_dir_step save_path w).1 ∧
  save_dir_ready save_path (with_gpu gpu w) = save_dir_ready save_path w.
Proof.
  destruct gpu as [gpu|]; [|done].
  unfold save_dir_step, save_dir_ready. simpl.
  destruct (fs w !! save_path) as [[|]|]; [done|done|].
  by destruct (sys_makedirs S (fs w) save_path).2 as [[]|e].
Qed.

Lemma parse_args_eq (argv : CommandLine) (w : World) :
  parse_args argv w = parse_args_run argv w.
Proof.
  unfold parse_args, parse_args_run.
  cbn [args_gpu args_dicom args_save args_ext args_dess args_t2
         args_batch_size parser_parse_args].
  rewrite parse_args_gpu.
  set (gpu := nargs_optional None (arg_gpu argv)).
  destruct (with_gpu_same gpu w) as (Hfs & Hlog & Hbatch).
  set (w1 := with_gpu gpu w) in *.
  destruct (arg_dicom argv) as [dicom_path|]; [|done].
  cbn [fmap option_fmap option_map getitem0_opt getitem0].
  unfold bind at 1. unfold try_except at 1. unfold ret at 1.
  unfold bind at 1. unfold try_except at 1. unfold bind at 1.
  unfold os_path_isdir at 1. rewrite Hfs.
  destruct (bool_decide (fs w !! dicom_path = Some Dir)) eqn:Hdir; [|done].
  cbn [negb ret].
  destruct (nargs_optional (Some "") (arg_save argv)) as [save|] eqn:Hsave; [|done].
  assert (bool_decide (Some save = Some "") = bool_decide (save = "")) as ->.
  { apply bool_decide_ext. split; congruence. }
  replace (if bool_decide (save = "") then Some dicom_path else Some save)
    with (Some (resolve_save_path save dicom_path))
    by (unfold resolve_save_path; by destruct (bool_decide (save = ""))).
  set (save_path := resolve_save_path save dicom_path).
  rewrite save_dir_step_bind.
  destruct (save_dir_step save_path w1) as [w2 [[]|e]]; [|done].
  unfold store_const, num_echos_of, after_generate_mask, bind, models_set_BATCH_SIZE,
    with_BATCH_SIZE.
  destruct (arg_dess argv), (arg_t2 argv); simpl; try reflexivity;
    by destruct (generate_mask _ _ _ _ _ _) as [w' [masks|e]].
Qed.

Lemma save_dir_step_dir (save_path : string) (w : World) :
  fs w !! save_path = Some Dir → save_dir_step save_path w = (w, Return tt).
Proof. unfold save_dir_step. by intros ->. Qed.

Lemma save_dir_step_created (save_path : string) (w : World) parents :
  fs w !! save_path = None →
  sys_makedirs S (fs w) save_path = (parents, Return tt) →
  save_dir_step save_path w = (with_new_dir parents save_path w, Return tt).
Proof. unfold save_dir_step. by intros -> ->. Qed.

Lemma save_dir_step_failed (save_path : string) (w : World) parents e :
  fs w !! save_path = None →
  sys_makedirs S (fs w) save_path = (parents, Raise e) →
  save_dir_step save_path w = (with_failed_makedirs parents save_path w, Raise e).
Proof. unfold save_dir_step. by intros -> ->. Qed.

(** [parse_args] once the dicom path has passed its check and the save
    path has a value: lines 123-124, then the flag check, then mask
    generation. *)
Lemma parse_args_save_dir (argv : CommandLine) (w : World) dicom_path save :
  arg_dicom argv = Some dicom_path →
  fs w !! dicom_path = Some Dir →
  nargs_optional (Some "") (arg_save argv) = Some save →
  let save_path := resolve_save_path save dicom_path in
  let step := save_dir_step save_path (with_gpu (nargs_optional None (arg_gpu argv)) w) in
  parse_args argv w
  = match step.2 with
    | Raise e => (step.1, Raise e)
    | Return _ =>
        if negb (arg_dess argv) && arg_t2 argv
        then (step.1, Raise (ValueError T2_WITHOUT_DESS_MSG))
        else
          after_generate_mask argv
            (generate_mask dicom_path save_path
               (tissue_strs_of (parser_parse_args argv))
               (nargs_optional None (arg_ext argv)) (num_echos_of argv)
               (with_BATCH_SIZE
                  (nargs_optional (Some 32%Z) (arg_batch_size argv)) step.1))
    end.
Proof.
  intros Hd Hdir Hsave. cbv zeta. rewrite parse_args_eq. unfold parse_args_run.
  rewrite Hd, Hsave, bool_decide_eq_true_2 by done.
  by destruct (save_dir_step _ _) as [w2 [[]|e]].
Qed.

(** ** The claims about [parse_args] *)

(** C3. For every invocation whose dicom path does not exist or is not a
    directory, [parse_args] raises [NotADirectoryError]; this is not the
    error of a missing dicom path, which is a [ValueError]; and it is
    raised before the save directory is touched: the disk is unchanged and
    no call is in the log. *)
Theorem C3_bad_dicom_path_raises_before_makedirs (argv : CommandLine) (w : World) :
  (∀ dicom_path,
      arg_dicom argv = Some dicom_path →
      fs w !! dicom_path ≠ Some Dir →
      ∃ w',
        parse_args argv w
        = (w', Raise (NotADirectoryError (NOT_A_DIRECTORY_MSG dicom_path))) ∧
        fs w' = fs w ∧ log w' = log w) ∧
  (arg_dicom argv = None →
   ∃ w', parse_args argv w = (w', Raise (ValueError NO_DICOM_MSG)) ∧
         fs w' = fs w ∧ log w' = log w) ∧
  (∀ dicom_path,
      NotADirectoryError (NOT_A_DIRECTORY_MSG dicom_path) ≠ ValueError NO_DICOM_MSG).
Proof.
  destruct (with_gpu_same (nargs_optional None (arg_gpu argv)) w) as (Hfs & Hlog & _).
  split_and!.
  - intros dicom_path Hd Hdir. eexists.
    rewrite parse_args_eq. unfold parse_args_run.
    rewrite Hd, bool_decide_eq_false_2 by done. done.
  - intros Hd. eexists. rewrite parse_args_eq. unfold parse_args_run.
    rewrite Hd. done.
  - done.
Qed.

(** C9, as amended.  The T2-without-DESS check comes after the save path
    is resolved and created: for every invocation with a dicom path that is
    a directory, a save path that does not exist, [--t2] set and [--dess]
    unset, when [os.makedirs] returns the run ends with the configuration
    error and the save directory is on disk, created by the one
    [os.makedirs] call of the run, with every entry the disk had; when
    [os.makedirs] raises, the run ends with that exception and the check
    is not reached. *)
Theorem C9_config_error_after_save_dir_created
    (argv : CommandLine) (w : World) dicom_path save :
  arg_dicom argv = Some dicom_path →
  fs w !! dicom_path = Some Dir →
  args_save (parser_parse_args argv) = Some save →
  fs w !! resolve_save_path save dicom_path = None →
  arg_t2 argv = true →
  arg_dess argv = false →
  let save_path := resolve_save_path save dicom_path in
  (∀ parents,
      sys_makedirs S (fs w) save_path = (parents, Return tt) →
      ∃ w',
        parse_args argv w = (w', Raise (ValueError T2_WITHOUT_DESS_MSG)) ∧
        fs w' = <[save_path := Dir]> (create_dirs parents (fs w)) ∧
        fs w' !! save_path = Some Dir ∧
        (∀ path node, fs w !! path = Some node → fs w' !! path = Some node) ∧
        log w' = log w ++ [EvMakedirs save_path]) ∧
  (∀ parents e,
      sys_makedirs S (fs w) save_path = (parents, Raise e) →
      ∃ w',
        parse_args argv w = (w', Raise e) ∧
        fs w' = create_dirs parents (fs w) ∧
        log w' = log w ++ [EvMakedirs save_path]).
Proof.
  intros Hd Hdir Hsave Hnone Ht2 Hdess save_path.
  cbn [args_save parser_parse_args] in Hsave.
  destruct (with_gpu_same (nargs_optional None (arg_gpu argv)) w) as (Hfs & Hlog & _).
  pose proof (parse_args_save_dir argv w dicom_path save Hd Hdir Hsave) as Hrun.
  cbv zeta in Hrun. fold save_path in Hnone, Hrun.
  rewrite Ht2, Hdess in Hrun. cbn [negb andb] in Hrun.
  set (w1 := with_gpu _ w) in *.
  split.
  - intros parents Hmk.
    rewrite (save_dir_step_created save_path w1 parents) in Hrun
      by (by rewrite Hfs).
    cbn [fst snd] in Hrun. eexists. split; [exact Hrun|].
    cbn [fs log with_new_dir]. rewrite Hfs, Hlog. split_and!; [done| | |done].
    + apply lookup_insert_eq.
    + intros path node Hpath. rewrite lookup_insert_ne by congruence.
      by apply create_dirs_keeps.
  - intros parents e Hmk.
    rewrite (save_dir_step_failed save_path w1 parents e) in Hrun
      by (by rewrite Hfs).
    cbn [fst snd] in Hrun. eexists. split; [exact Hrun|].
    cbn [fs log with_failed_makedirs]. by rewrite Hfs, Hlog.
Qed.


Lemma preprocessed_fs (w1 w2 : World) dicom_path dicom_ext echos loaded first volume :
  fs w1 = fs w2 →
  preprocessed w1 dicom_path dicom_ext echos loaded first volume →
  preprocessed w2 dicom_path dicom_ext echos loaded first volume.
Proof. unfold preprocessed. by intros ->. Qed.

Lemma after_generate_mask_world (argv : CommandLine)
    (r : World * outcome (Dict (Volume S))) :
  (after_generate_mask argv r).1 = r.1.
Proof. destruct r as [w' [masks|e]]; simpl; [by destruct (_ && _)|done]. Qed.

(** What a run of [parse_args] that gets past lines 123-124 logs and does
    to the disk after them: no further directory creation, and writes at
    the mask paths of the requested tissues only. *)
Lemma parse_args_after_save_dir (argv : CommandLine) (w w2 : World) dicom_path save :
  arg_dicom argv = Some dicom_path →
  fs w !! dicom_path = Some Dir →
  nargs_optional (Some "") (arg_save argv) = Some save →
  save_dir_step (resolve_save_path save dicom_path)
    (with_gpu (nargs_optional None (arg_gpu argv)) w) = (w2, Return tt) →
  let save_path := resolve_save_path save dicom_path in
  let tissue_strs := tissue_strs_of (parser_parse_args argv) in
  (∃ later,
      log (parse_args argv w).1 = log w2 ++ later ∧
      makedirs_calls later = [] ∧
      ∀ path mask, (path, mask) ∈ writes later →
                   path ∈ mask_path save_path <$> tissue_strs) ∧
  (∀ path, path ∉ mask_path save_path <$> tissue_strs →
           fs (parse_args argv w).1 !! path = fs w2 !! path).
Proof.
  intros Hd Hdir Hsave Hstep save_path tissue_strs.
  rewrite (parse_args_save_dir argv w dicom_path save Hd Hdir Hsave).
  cbv zeta. rewrite Hstep. cbn [fst snd].
  destruct (negb (arg_dess argv) && arg_t2 argv).
  { split; [|done]. exists []. rewrite app_nil_r. split_and!; [done|done|].
    intros path mask Hin. by apply elem_of_nil in Hin. }
  rewrite after_generate_mask_world.
  set (w3 := with_BATCH_SIZE _ w2).
  destruct (generate_mask_disk dicom_path save_path tissue_strs
              (nargs_optional None (arg_ext argv)) (num_echos_of argv) w3)
    as (Hdisk & later & Hlater & Hmk & Hwrites).
  split; [by exists later|exact Hdisk].
Qed.

(** C8, as amended.  For every run whose dicom path is a directory and
    whose save path does not exist, which is then a save path given on
    the command line and not the default, and for which [os.makedirs]
    returns: the save directory is created during argument resolution, by
    the first call of the run and so before anything is loaded; no other
    directory creation is attempted; whatever the outcome of the run, the
    files written are mask files of requested tissues, at
    [os.path.join(save_path, tissue + '.tiff')], and nothing else on the
    disk changes after the creation.  When the flags are not [--t2]
    without [--dess] and mask generation completes, one mask file per
    requested tissue is written, in request order, and is on disk. *)
Theorem C8_save_dir_created_then_masks_written
    (argv : CommandLine) (w : World) dicom_path save parents :
  arg_dicom argv = Some dicom_path →
  fs w !! dicom_path = Some Dir →
  args_save (parser_parse_args argv) = Some save →
  fs w !! resolve_save_path save dicom_path = None →
  sys_makedirs S (fs w) (resolve_save_path save dicom_path) = (parents, Return tt) →
  let save_path := resolve_save_path save dicom_path in
  let tissue_strs := tissue_strs_of (parser_parse_args argv) in
  let w' := (parse_args argv w).1 in
  let created := <[save_path := Dir]> (create_dirs parents (fs w)) in
  save ≠ "" ∧
  created !! save_path = Some Dir ∧
  (∃ later,
      log w' = log w ++ EvMakedirs save_path :: later ∧
      makedirs_calls later = [] ∧
      ∀ path mask, (path, mask) ∈ writes later →
                   path ∈ mask_path save_path <$> tissue_strs) ∧
  (∀ path, path ∉ mask_path save_path <$> tissue_strs →
           fs w' !! path = created !! path) ∧
  (∀ loaded first volume ms,
      (arg_t2 argv = true → arg_dess argv = true) →
      preprocessed (with_new_dir parents save_path w) dicom_path
        (args_ext (parser_parse_args argv)) (num_echos_of argv) loaded first volume →
      Forall2 (segments_ok (args_batch_size (parser_parse_args argv)) volume)
        tissue_strs ms →
      log w' = log w ++ [EvMakedirs save_path]
                 ++ preamble_events dicom_path (args_ext (parser_parse_args argv))
                      (num_echos_of argv) loaded.1 first
                 ++ concat (iteration_events volume save_path <$> zip tissue_strs ms) ∧
      writes (log w') = writes (log w) ++ zip (mask_path save_path <$> tissue_strs) ms ∧
      (∀ t, t ∈ tissue_strs → fs w' !! mask_path save_path t = Some File) ∧
      (parse_args argv w).2
      = if arg_dess argv && arg_t2 argv
        then Raise (TypeError BOOL_NOT_CALLABLE_MSG)
        else Return tt).
Proof.
  intros Hd Hdir Hsave Hnone Hsys save_path tissue_strs w' created.
  cbn [args_save args_ext args_batch_size parser_parse_args] in *.
  destruct (with_gpu_same (nargs_optional None (arg_gpu argv)) w) as (Hfs & Hlog & _).
  set (w1 := with_gpu _ w) in *.
  assert (save_dir_step save_path w1 = (with_new_dir parents save_path w1, Return tt))
    as Hstep by (apply save_dir_step_created; by rewrite Hfs).
  destruct (parse_args_after_save_dir argv w _ dicom_path save Hd Hdir Hsave Hstep)
    as [(later & Hlater & Hmk & Hwrites) Hdisk].
  fold w' in Hlater, Hdisk.
  split_and!.
  - intros ->. unfold resolve_save_path in Hnone. simpl in Hnone. congruence.
  - apply lookup_insert_eq.
  - exists later. split_and!; [|done|done].
    rewrite Hlater. cbn [log with_new_dir]. by rewrite Hlog, <- app_assoc.
  - intros path Hpath. rewrite Hdisk by done. cbn [fs with_new_dir]. by rewrite Hfs.
  - intros loaded first volume ms Hflags Hpre Hok.
    pose proof (Forall2_length _ _ _ Hok) as Hlen.
    assert ((zip tissue_strs ms).*1 = tissue_strs) as Hfst by (apply fst_zip; lia).
    assert (negb (arg_dess argv) && arg_t2 argv = false) as Hcheck.
    { destruct (arg_dess argv), (arg_t2 argv); try done. by discriminate Hflags. }
    subst w'. rewrite (parse_args_save_dir argv w dicom_path save Hd Hdir Hsave).
    cbv zeta. fold save_path w1 tissue_strs. rewrite Hstep, Hcheck. cbn [fst snd].
    set (w2 := with_BATCH_SIZE _ _).
    rewrite (generate_mask_completes _ _ _ _ _ w2 loaded first volume ms);
      [|apply (preprocessed_fs (with_new_dir parents save_path w)); [|exact Hpre];
        cbn [fs with_new_dir with_BATCH_SIZE w2]; by rewrite Hfs
       |exact Hok].
    unfold after_generate_mask.
    set (w3 := segmented _ _ _ _).
    assert (log w3 = log w ++ [EvMakedirs save_path]
                       ++ preamble_events dicom_path (nargs_optional None (arg_ext argv))
                            (num_echos_of argv) loaded.1 first
                       ++ concat (iteration_events volume save_path <$> zip tissue_strs ms))
      as Hlog3.
    { unfold w3. rewrite log_segmented, log_with_log. simpl.
      by rewrite Hlog, <- !app_assoc. }
    assert ((if arg_dess argv && arg_t2 argv
             then (w3, Raise (TypeError BOOL_NOT_CALLABLE_MSG))
             else (w3, Return tt))
            = (w3, if arg_dess argv && arg_t2 argv
                   then Raise (TypeError BOOL_NOT_CALLABLE_MSG)
                   else Return tt)) as ->
      by (by destruct (arg_dess argv && arg_t2 argv)).
    cbn [fst snd].
    split_and!.
    + exact Hlog3.
    + rewrite Hlog3, !writes_app, writes_iterations, zip_paths. done.
    + intros t Ht. apply segmented_fs_written. by rewrite Hfst.
    + done.
Qed.

Lemma generate_mask_makes_no_t2_call dicom_path save_path tissue_strs dicom_ext echos
    (w : World) :
  ∃ new,
    log (generate_mask dicom_path save_path tissue_strs dicom_ext echos w).1
    = log w ++ new ∧
    Forall (λ ev, is_t2_call ev = false) new.
Proof.
  assert (∀ volume done,
            Forall (λ ev, is_t2_call ev = false)
              (concat (iteration_events volume save_path <$> done))) as Hiters.
  { intros volume done. apply Forall_concat, Forall_fmap, Forall_true.
    intros tm. by repeat constructor. }
  destruct (generate_mask_trace dicom_path save_path tissue_strs dicom_ext echos w)
    as [(e & new & Hrun & Hnew & _)
       |(loaded & first & volume & pre & ms & rest & _ & _ & _ & Hrun)].
  - exists new. rewrite Hrun. split; [done|].
    eapply Forall_impl; [exact Hnew|]. by intros [].
  - cbv beta zeta in Hrun. destruct rest as [|t rest].
    + rewrite Hrun. cbn [fst]. rewrite log_segmented, log_with_log.
      eexists. rewrite <- app_assoc. split; [reflexivity|].
      apply Forall_app. split; [by repeat constructor|apply Hiters].
    + destruct Hrun as (e & Hrun & _). rewrite Hrun. cbn [fst].
      rewrite log_with_log, log_segmented, log_with_log.
      eexists. rewrite <- !app_assoc. split; [reflexivity|].
      rewrite !Forall_app. split_and!; [by repeat constructor|apply Hiters|].
      by repeat constructor.
Qed.

(** [parse_args] never gets into the T2 flow: the call of line 152
    resolves the name [calculate_t2_maps] to the local [bool] of line 130,
    so no run logs a T2 call, and no run with [--dess] and [--t2] returns
    normally. *)
Lemma parse_args_makes_no_t2_call (argv : CommandLine) (w : World) :
  (∃ new, log (parse_args argv w).1 = log w ++ new ∧
          Forall (λ ev, is_t2_call ev = false) new) ∧
  (arg_dess argv = true → arg_t2 argv = true → (parse_args argv w).2 ≠ Return tt).
Proof.
  destruct (with_gpu_same (nargs_optional None (arg_gpu argv)) w) as (Hfs & Hlog & _).
  rewrite parse_args_eq. unfold parse_args_run.
  destruct (arg_dicom argv) as [dicom_path|].
  2:{ split; [|done]. exists []. rewrite app_nil_r. by split. }
  destruct (bool_decide (fs w !! dicom_path = Some Dir)).
  2:{ split; [|done]. exists []. rewrite app_nil_r. by split. }
  destruct (nargs_optional (Some "") (arg_save argv)) as [save|].
  2:{ split; [|done]. exists []. rewrite app_nil_r. by split. }
  set (save_path := resolve_save_path save dicom_path).
  set (w1 := with_gpu _ w) in *.
  destruct (save_dir_step_log save_path w1) as (pre & Hpre & Hmk).
  rewrite Hlog in Hpre.
  assert (Forall (λ ev, is_t2_call ev = false) pre) as Hpre_ok.
  { eapply Forall_impl; [exact Hmk|]. by intros []. }
  destruct (save_dir_step save_path w1) as [w2 [[]|e]]; cbn [fst] in Hpre.
  2:{ split; [by exists pre|done]. }
  destruct (negb (arg_dess argv) && arg_t2 argv).
  { split; [by exists pre|done]. }
  set (w3 := with_BATCH_SIZE _ w2).
  destruct (generate_mask_makes_no_t2_call dicom_path save_path
              (tissue_strs_of (parser_parse_args argv))
              (nargs_optional None (arg_ext argv)) (num_echos_of argv) w3)
    as (new & Hnew & Hnew_ok).
  destruct (generate_mask _ _ _ _ _ _) as [w4 [masks|e]]; simpl in *.
  - split.
    + exists (pre ++ new). split; [|by apply Forall_app].
      destruct (_ && _); simpl; by rewrite Hnew, Hpre, <- app_assoc.
    + by intros -> ->.
  - split; [|done].
    exists (pre ++ new). split; [|by apply Forall_app].
    by rewrite Hnew, Hpre, <- app_assoc.
Qed.

(** ** Further properties: [generate_mask] *)

Lemma prefix_sep_tiff (tissue : string) :
  String.prefix "/" (tissue +:+ ".tiff") = String.prefix "/" tissue.
Proof.
  destruct tissue as [|c tissue]; [done|].
  change (String c tissue +:+ ".tiff") with (String c (tissue +:+ ".tiff")).
  cbn -[ascii_dec]. destruct (ascii_dec "/" c); [|done].
  by destruct (tissue +:+ ".tiff"), tissue.
Qed.

Lemma dict_set_NoDup {V} (k : string) (v : V) (d : Dict V) :
  NoDup (dict_keys d) → NoDup (dict_keys (dict_set k v d)).
Proof.
  unfold dict_keys. induction d as [|[k0 v0] d IH]; simpl; intros Hnd.
  - apply NoDup_singleton.
  - apply NoDup_cons in Hnd as [Hk0 Hnd].
    destruct (decide (k = k0)) as [->|Hne]; simpl.
    + by apply NoDup_cons.
    + apply NoDup_cons. split; [|by apply IH].
      intros Hin. apply (dict_keys_set k v d k0) in Hin as [->|Hin]; done.
Qed.

Lemma dict_update_NoDup {V} (kvs : list (string * V)) (d : Dict V) :
  NoDup (dict_keys d) → NoDup (dict_keys (dict_update d kvs)).
Proof.
  revert d. induction kvs as [|[k v] kvs IH]; intros d Hnd; [done|].
  apply (IH (dict_set k v d)). by apply dict_set_NoDup.
Qed.

(** X2. When loading, splitting or whitening fails, [generate_mask] raises
    that exception at once: the calls made so far are the only events
    logged, so nothing is segmented or written, and the disk is as before.
    A split that returns no sub-volume makes [subvolumes[0]] raise
    [IndexError]. *)
Theorem X2_preprocessing_failure_propagates
    dicom_path save_path tissue_strs dicom_ext echos (w : World) :
  (∀ e,
      svc_load_dicom S (fs w) dicom_path dicom_ext = Raise e →
      ∃ w',
        generate_mask dicom_path save_path tissue_strs dicom_ext echos w = (w', Raise e) ∧
        fs w' = fs w ∧
        log w' = log w ++ [EvLoadDicom dicom_path dicom_ext]) ∧
  (∀ loaded e,
      svc_load_dicom S (fs w) dicom_path dicom_ext = Return loaded →
      svc_split_volume S loaded.1 echos = Raise e ∨
      svc_split_volume S loaded.1 echos = Return [] ∧
      e = IndexError "list index out of range" →
      ∃ w',
        generate_mask dicom_path save_path tissue_strs dicom_ext echos w = (w', Raise e) ∧
        fs w' = fs w ∧
        log w' = log w ++ [EvLoadDicom dicom_path dicom_ext;
                           EvSplitVolume loaded.1 echos]) ∧
  (∀ loaded first others e,
      svc_load_dicom S (fs w) dicom_path dicom_ext = Return loaded →
      svc_split_volume S loaded.1 echos = Return (first :: others) →
      svc_whiten_volume S first = Raise e →
      ∃ w',
        generate_mask dicom_path save_path tissue_strs dicom_ext echos w = (w', Raise e) ∧
        fs w' = fs w ∧
        log w' = log w ++ [EvLoadDicom dicom_path dicom_ext;
                           EvSplitVolume loaded.1 echos; EvWhitenVolume first]).
Proof.
  split_and!.
  - intros e Hload. eexists.
    unfold generate_mask, utils_load_dicom, call, bind, emit.
    simpl. rewrite Hload. done.
  - intros loaded e Hload [Hsplit|[Hsplit ->]]; eexists;
      unfold generate_mask, utils_load_dicom, utils_split_volume, call, bind, emit;
      simpl; rewrite Hload; simpl; rewrite Hsplit; simpl;
      (split_and!; [reflexivity|done|]); simpl; by rewrite <- !app_assoc.
  - intros loaded first others e Hload Hsplit Hwhiten. eexists.
    unfold generate_mask, utils_load_dicom, utils_split_volume, utils_whiten_volume,
      call, bind, emit.
    simpl. rewrite Hload. simpl. rewrite Hsplit. simpl. rewrite Hwhiten.
    split_and!; [reflexivity|done|]. simpl. by rewrite <- !app_assoc.
Qed.

(** X3. An exception of the Segmentation Service is not caught: when the
    service raises at a tissue, [generate_mask] raises the same exception,
    the files of the tissues before it have been written, in order, and
    neither that tissue nor any later one is written or, for the later
    ones, segmented. *)
Theorem X3_segmentation_error_propagates
    dicom_path save_path dicom_ext echos (w : World)
    loaded first volume pre ms tissue post e :
  preprocessed w dicom_path dicom_ext echos loaded first volume →
  Forall2 (segments_ok (BATCH_SIZE w) volume) pre ms →
  svc_generate_mask S (BATCH_SIZE w) volume tissue = Raise e →
  ∃ w' new,
    generate_mask dicom_path save_path (pre ++ tissue :: post) dicom_ext echos w
    = (w', Raise e) ∧
    log w' = log w ++ new ∧
    writes new = zip (mask_path save_path <$> pre) ms ∧
    segmentation_calls new = (λ t, (volume, t)) <$> (pre ++ [tissue]).
Proof.
  intros Hpre Hok Hsvc.
  pose proof (Forall2_length _ _ _ Hok) as Hlen.
  rewrite (generate_mask_preprocessed _ _ _ _ _ _ _ _ _ Hpre).
  rewrite (loop_completed _ _ _ ms) by done.
  rewrite for_in_cons, (generate_mask_body_raise _ _ _ e) by done.
  unfold finish. eexists _, _. split_and!; [reflexivity| | |].
  - rewrite log_with_log, log_segmented, log_with_log, <- !app_assoc. reflexivity.
  - rewrite !writes_app, writes_iterations, zip_paths. simpl. apply app_nil_r.
  - rewrite !segmentation_calls_app, segmentation_calls_iterations, calls_of_zip by done.
    by rewrite fmap_app.
Qed.

(** X4. The mapping [generate_mask] returns holds, for each requested
    tissue, the mask the Segmentation Service returned for it on the
    whitened first sub-volume, a mask of that volume's shape; and it holds
    nothing else. *)
Theorem X4_returned_masks_are_the_service_masks
    dicom_path save_path tissue_strs dicom_ext echos (w w' : World) masks :
  generate_mask dicom_path save_path tissue_strs dicom_ext echos w = (w', Return masks) →
  ∃ loaded first volume,
    preprocessed w dicom_path dicom_ext echos loaded first volume ∧
    (∀ tissue, tissue ∈ tissue_strs →
       ∃ mask, dict_get tissue masks = Some mask ∧
               svc_generate_mask S (BATCH_SIZE w) volume tissue = Return mask ∧
               shape S volume = shape S mask) ∧
    (∀ k mask, dict_get k masks = Some mask →
       k ∈ tissue_strs ∧
       svc_generate_mask S (BATCH_SIZE w) volume k = Return mask).
Proof.
  intros Hrun.
  apply generate_mask_returned in Hrun
    as (loaded & first & volume & ms & Hpre & Hok & -> & _).
  pose proof (Forall2_length _ _ _ Hok) as Hlen.
  assert (∀ k mask,
            dict_get k (dict_update dict_empty (zip tissue_strs ms)) = Some mask →
            k ∈ tissue_strs ∧ segments_ok (BATCH_SIZE w) volume k mask) as Hget.
  { intros k mask Hk. apply dict_get_update in Hk as [Hk|Hin]; [done|].
    split; [by apply elem_of_zip_l in Hin|exact (Forall2_zip_elem _ _ _ _ _ Hok Hin)]. }
  exists loaded, first, volume. split_and!; [done| |].
  - intros tissue Hin.
    destruct (dict_get_is_Some tissue (dict_update dict_empty (zip tissue_strs ms)))
      as [mask Hmask].
    { apply dict_keys_update. right. rewrite fst_zip by lia. done. }
    exists mask. destruct (Hget _ _ Hmask) as [_ [Hsvc Hshape]]. done.
  - intros k mask Hk. destruct (Hget _ _ Hk) as [Hin [Hsvc _]]. done.
Qed.

(** X5. The mapping [generate_mask] returns never has a repeated key,
    whatever the tissue list: a tissue listed twice is segmented and written
    once per occurrence, in list order, and keeps one entry. *)
Theorem X5_returned_keys_unique_one_write_per_occurrence
    dicom_path save_path tissue_strs dicom_ext echos (w w' : World) masks :
  generate_mask dicom_path save_path tissue_strs dicom_ext echos w = (w', Return masks) →
  NoDup (dict_keys masks) ∧
  ∃ new volume,
    log w' = log w ++ new ∧
    (writes new).*1 = mask_path save_path <$> tissue_strs ∧
    segmentation_calls new = (λ t, (volume, t)) <$> tissue_strs.
Proof.
  intros Hrun.
  apply generate_mask_returned in Hrun
    as (loaded & first & volume & ms & Hpre & Hok & -> & ->).
  pose proof (Forall2_length _ _ _ Hok) as Hlen.
  split; [apply dict_update_NoDup, NoDup_nil_2|].
  eexists _, volume. split_and!.
  - rewrite log_segmented, log_with_log, <- app_assoc. reflexivity.
  - rewrite writes_app, writes_iterations, zip_paths. simpl.
    apply fst_zip. rewrite length_fmap. lia.
  - rewrite segmentation_calls_app, segmentation_calls_iterations, calls_of_zip by done.
    done.
Qed.

Lemma prints_app (l1 l2 : list Event) : prints (l1 ++ l2) = prints l1 ++ prints l2.
Proof. apply omap_app. Qed.

Lemma prints_iterations volume save_path (done : list (string * Volume S)) :
  prints (concat (iteration_events volume save_path <$> done))
  = progress_line <$> done.*1.
Proof.
  induction done as [|[t m] done IH]; [done|].
  rewrite !fmap_cons. change (concat (?l :: ?ls)) with (l ++ concat ls).
  rewrite prints_app, IH. reflexivity.
Qed.

(** X6. What a run of [generate_mask] prints.  When loading, splitting or
    whitening fails, it raises, prints nothing and makes no segmentation
    call.  When they succeed, it prints a blank line and then one progress
    line per segmentation call, in call order, each naming the tissue of
    the call; the calls are on a prefix of the tissue list, on the whitened
    first sub-volume, and there is one as soon as a tissue is requested. *)
Theorem X6_one_progress_line_per_segmentation_call
    dicom_path save_path tissue_strs dicom_ext echos (w : World) :
  let run := generate_mask dicom_path save_path tissue_strs dicom_ext echos w in
  ∃ new,
    log run.1 = log w ++ new ∧
    ((∀ loaded first volume,
         ¬ preprocessed w dicom_path dicom_ext echos loaded first volume) →
     (∃ e, run.2 = Raise e) ∧ prints new = [] ∧ segmentation_calls new = []) ∧
    (∀ loaded first volume,
        preprocessed w dicom_path dicom_ext echos loaded first volume →
        prints new = "" :: (progress_line <$> (segmentation_calls new).*2) ∧
        ∃ called,
          called `prefix_of` tissue_strs ∧
          segmentation_calls new = (λ tissue, (volume, tissue)) <$> called ∧
          (tissue_strs ≠ [] → called ≠ [])).
Proof.
  intros run. subst run.
  destruct (generate_mask_account dicom_path save_path tissue_strs dicom_ext echos w)
    as [(e & new & Hrun & Hstop)
       |(loaded & first & volume & pre & ms & rest & r & Hpre & Hts & Hok & Hrun & _)].
  - exists new. rewrite Hrun. split_and!; [done| |].
    + intros _. split; [by exists e|].
      destruct Hstop as [[_ ->]|[(l & _ & -> & _)|(l & f & o & _ & _ & _ & ->)]]; done.
    + intros loaded first volume Hpre.
      by destruct (early_stop_not_preprocessed _ _ _ _ _ _ _ _ _ Hstop Hpre).
  - eexists. rewrite Hrun. split_and!; [reflexivity| |].
    + intros Hnot. by destruct (Hnot loaded first volume).
    + intros loaded' first' volume' Hpre'.
      rewrite (preprocessed_volume _ _ _ _ _ _ _ _ _ _ Hpre Hpre').
      pose proof (Forall2_length _ _ _ Hok) as Hlen.
      rewrite !segmentation_calls_app, !prints_app.
      rewrite segmentation_calls_iterations, prints_iterations, calls_of_zip by done.
      rewrite fst_zip by lia.
      change (prints (preamble_events dicom_path dicom_ext echos loaded.1 first)) with [""].
      change (segmentation_calls (preamble_events dicom_path dicom_ext echos loaded.1 first))
        with (@nil (Volume S * string)).
      split.
      * simpl app. f_equal. rewrite !fmap_app, <- !list_fmap_compose. f_equal.
        by destruct rest.
      * exists (pre ++ take 1 rest). split_and!.
        -- rewrite Hts. apply prefix_app, prefix_take.
        -- simpl app. rewrite fmap_app. f_equal. by destruct rest.
        -- rewrite Hts. destruct pre, rest; done.
Qed.

(** X1. Where [generate_mask] writes: in every run, each file written is
    the mask file of a requested tissue, named [<tissue>.tiff] under the
    save path, with one separator after a non-empty save path that does not
    end with one and none otherwise; a tissue name that starts with a
    separator makes [os.path.join] discard the save path.  A run that
    returns has written one such file per requested tissue, in request
    order, and they are on disk. *)
Theorem X1_masks_written_under_save_path
    dicom_path save_path tissue_strs dicom_ext echos (w : World) :
  let sep := if bool_decide (save_path = "") || endswith_sep save_path
             then "" else "/" in
  let file_of tissue :=
    if String.prefix "/" tissue then tissue +:+ ".tiff"
    else save_path +:+ sep +:+ tissue +:+ ".tiff" in
  let run := generate_mask dicom_path save_path tissue_strs dicom_ext echos w in
  ∃ new,
    log run.1 = log w ++ new ∧
    (∀ path mask, (path, mask) ∈ writes new →
                  ∃ tissue, tissue ∈ tissue_strs ∧ path = file_of tissue) ∧
    (∀ masks, run.2 = Return masks →
              (writes new).*1 = file_of <$> tissue_strs ∧
              ∀ tissue, tissue ∈ tissue_strs → fs run.1 !! file_of tissue = Some File).
Proof.
  intros sep file_of run.
  assert (∀ tissue, mask_path save_path tissue = file_of tissue) as Hfile.
  { intros tissue. unfold mask_path, os_path_join, file_of, sep.
    rewrite prefix_sep_tiff.
    destruct (String.prefix "/" tissue); [done|].
    by destruct (bool_decide (save_path = "") || endswith_sep save_path). }
  destruct (generate_mask_disk dicom_path save_path tissue_strs dicom_ext echos w)
    as (_ & new & Hlog & _ & Hwrites).
  fold run in Hlog. exists new. split_and!; [exact Hlog| |].
  - intros path mask Hin. apply Hwrites in Hin.
    apply list_elem_of_fmap in Hin as (tissue & -> & Hin). by exists tissue.
  - intros masks Hret.
    destruct (generate_mask_returned dicom_path save_path tissue_strs dicom_ext echos
                w run.1 masks) as (loaded & first & volume & ms & Hpre & Hok & _);
      [rewrite <- Hret; apply surjective_pairing|].
    pose proof (Forall2_length _ _ _ Hok) as Hlen.
    pose proof (generate_mask_completes _ save_path _ _ _ _ _ _ _ _ Hpre Hok) as Hcompl.
    fold run in Hcompl.
    assert (new = preamble_events dicom_path dicom_ext echos loaded.1 first
                  ++ concat (iteration_events volume save_path <$> zip tissue_strs ms))
      as ->.
    { apply (app_inv_head (log w)). rewrite <- Hlog, Hcompl. cbn [fst].
      by rewrite log_segmented, log_with_log, <- app_assoc. }
    split.
    + rewrite writes_app, writes_iterations, zip_paths. simpl.
      rewrite fst_zip by (rewrite length_fmap; lia).
      apply list_fmap_ext. intros i tissue _. apply Hfile.
    + intros tissue Hin. rewrite <- Hfile, Hcompl. cbn [fst].
      apply segmented_fs_written. rewrite fst_zip by lia. done.
Qed.

(** ** Further properties: [calculate_t2_maps] *)

Lemma calculate_t2_maps_load_fails dicom_path save_path dicom_ext masks (w : World) e :
  svc_load_dicom S (fs w) dicom_path dicom_ext = Raise e →
  calculate_t2_maps dicom_path save_path dicom_ext masks w
  = (with_log w (log w ++ [EvPrint ""; EvPrint "Calculating T2 map...";
                           EvLoadDicom dicom_path dicom_ext]), Raise e).
Proof.
  intros Hload.
  unfold calculate_t2_maps, print, utils_load_dicom, call, bind, emit.
  simpl. rewrite Hload. unfold with_log. simpl. by rewrite <- !app_assoc.
Qed.

Lemma calculate_t2_maps_fit_fails dicom_path save_path dicom_ext masks (w : World)
    loaded e :
  svc_load_dicom S (fs w) dicom_path dicom_ext = Return loaded →
  svc_calc_dess_t2_map S loaded.1 loaded.2 = Raise e →
  calculate_t2_maps dicom_path save_path dicom_ext masks w
  = (with_log w (log w ++ t2_preamble_events dicom_path dicom_ext loaded), Raise e).
Proof.
  intros Hload Hcalc.
  unfold calculate_t2_maps, print, utils_load_dicom, dess_utils_calc_dess_t2_map,
    call, bind, emit.
  simpl. rewrite Hload. simpl. rewrite Hcalc.
  unfold with_log, t2_preamble_events. simpl. by rewrite <- !app_assoc.
Qed.

Lemma summary_event_flow masks t2_map (tail : list Event) :
  Forall (summary_event masks t2_map) tail →
  Forall (λ ev, is_t2_flow_event ev = true) tail.
Proof. intros H. eapply Forall_impl; [exact H|]. by intros ev (m & k & -> & _). Qed.

(** Every run of [calculate_t2_maps] leaves the world as it was but for
    the log, to which it adds events of the T2 flow only. *)
Lemma calculate_t2_maps_account dicom_path save_path dicom_ext masks (w : World) :
  ∃ new r,
    calculate_t2_maps dicom_path save_path dicom_ext masks w
    = (with_log w (log w ++ new), r) ∧
    Forall (λ ev, is_t2_flow_event ev = true) new.
Proof.
  destruct (svc_load_dicom S (fs w) dicom_path dicom_ext) as [loaded|e] eqn:Hload.
  2:{ eexists _, _. rewrite (calculate_t2_maps_load_fails _ _ _ _ _ e) by done.
      split; [reflexivity|by repeat constructor]. }
  destruct (svc_calc_dess_t2_map S loaded.1 loaded.2) as [t2_map|e] eqn:Hcalc.
  2:{ eexists _, _. rewrite (calculate_t2_maps_fit_fails _ _ _ _ _ loaded e) by done.
      split; [reflexivity|by repeat constructor]. }
  rewrite (calculate_t2_maps_loaded _ _ _ _ _ _ _ Hload Hcalc).
  set (w0 := with_log w _).
  destruct (t2_loop_cases masks t2_map (dict_keys masks) w0 dict_empty)
    as (pre & ss & rest & tail & _ & _ & Htail & Hloop); [done|].
  apply summary_event_flow in Htail.
  exists (t2_preamble_events dicom_path dicom_ext loaded ++ tail).
  destruct rest as [|k rest].
  - rewrite Hloop. eexists. split.
    + unfold finish, w0, with_log. simpl. by rewrite <- !app_assoc.
    + apply Forall_app. split; [by repeat constructor|done].
  - destruct Hloop as (e & mask & _ & _ & Hloop). rewrite Hloop. eexists. split.
    + unfold finish, w0, with_log. simpl. by rewrite <- !app_assoc.
    + apply Forall_app. split; [by repeat constructor|done].
Qed.

(** X7. The T2 flow persists nothing: whatever its outcome, a run of
    [calculate_t2_maps] leaves the disk, the environment and the batch size
    as they were; it writes no file and creates no directory, and it makes
    no split, whitening or segmentation call. *)
Theorem X7_t2_flow_changes_nothing dicom_path save_path dicom_ext masks (w : World) :
  let w' := (calculate_t2_maps dicom_path save_path dicom_ext masks w).1 in
  fs w' = fs w ∧ environ w' = environ w ∧ BATCH_SIZE w' = BATCH_SIZE w ∧
  ∃ new,
    log w' = log w ++ new ∧
    writes new = [] ∧ makedirs_calls new = [] ∧
    splits new = [] ∧ segmentation_calls new = [] ∧
    Forall (λ ev, ∀ volume, ev ≠ EvWhitenVolume volume) new.
Proof.
  destruct (calculate_t2_maps_account dicom_path save_path dicom_ext masks w)
    as (new & r & Hrun & Hnew).
  rewrite Hrun. split_and!; [done..|].
  exists new. split; [done|].
  assert (∀ {A} (f : Event → option A),
            (∀ ev, is_t2_flow_event ev = true → f ev = None) → omap f new = []) as Hnone.
  { intros A f Hf. clear Hrun. induction Hnew as [|ev new Hev _ IH]; [done|].
    simpl. by rewrite (Hf ev Hev). }
  split_and!; try (apply Hnone; by intros []).
  eapply Forall_impl; [exact Hnew|]. by intros [] ? ?.
Qed.

(** X8. When loading or the T2 fit fails, [calculate_t2_maps] raises that
    exception at once: after a failed load no fit is attempted, and after a
    failed fit no summary is extracted. *)
Theorem X8_t2_flow_failure_propagates dicom_path save_path dicom_ext masks (w : World) :
  (∀ e,
      svc_load_dicom S (fs w) dicom_path dicom_ext = Raise e →
      ∃ w',
        calculate_t2_maps dicom_path save_path dicom_ext masks w = (w', Raise e) ∧
        log w' = log w ++ [EvPrint ""; EvPrint "Calculating T2 map...";
                           EvLoadDicom dicom_path dicom_ext]) ∧
  (∀ loaded e,
      svc_load_dicom S (fs w) dicom_path dicom_ext = Return loaded →
      svc_calc_dess_t2_map S loaded.1 loaded.2 = Raise e →
      ∃ w',
        calculate_t2_maps dicom_path save_path dicom_ext masks w = (w', Raise e) ∧
        log w' = log w ++ [EvPrint ""; EvPrint "Calculating T2 map...";
                           EvLoadDicom dicom_path dicom_ext;
                           EvCalcT2Map loaded.1 loaded.2]).
Proof.
  split.
  - intros e Hload. eexists.
    rewrite (calculate_t2_maps_load_fails _ _ _ _ _ e) by done. done.
  - intros loaded e Hload Hcalc. eexists.
    rewrite (calculate_t2_maps_fit_fails _ _ _ _ _ loaded e) by done. done.
Qed.

Lemma dict_get_own {V} (d : Dict V) (k : string) (v : V) :
  NoDup (dict_keys d) → (k, v) ∈ d → dict_get k d = Some v.
Proof.
  unfold dict_keys. induction d as [|[k0 v0] d IH]; simpl; intros Hnd Hin.
  - by apply elem_of_nil in Hin.
  - apply NoDup_cons in Hnd as [Hk0 Hnd].
    apply elem_of_cons in Hin as [[= -> ->]|Hin].
    + by rewrite decide_True.
    + rewrite decide_False; [by apply IH|].
      intros ->. apply Hk0. apply list_elem_of_fmap. by exists (k0, v).
Qed.

(** A run of the summary loop that returns made one summary call per key,
    in order, each with the mask the mapping has for the key. *)
Lemma t2_loop_returned masks t2_map (ks : list string) (w w' : World) t2_vals t2_vals' :
  for_in ks (calculate_t2_maps_body masks t2_map) (w, t2_vals)
  = ((w', t2_vals'), Return tt) →
  ∃ ms,
    Forall2 (λ k m, dict_get k masks = Some m) ks ms ∧
    log w' = log w ++ ((λ km, EvGetTissueT2 t2_map km.2 km.1) <$> zip ks ms).
Proof.
  revert w t2_vals. induction ks as [|k ks IH]; intros w t2_vals Hrun.
  - injection Hrun as <- _. exists []. split; [constructor|by rewrite app_nil_r].
  - rewrite for_in_cons in Hrun.
    destruct (dict_get k masks) as [mask|] eqn:Hget.
    2:{ unfold calculate_t2_maps_body, dict_getitem, bind in Hrun.
        rewrite Hget in Hrun. discriminate Hrun. }
    destruct (svc_get_tissue_t2 S t2_map mask k) as [summary|e] eqn:Hsvc.
    2:{ rewrite (calculate_t2_maps_body_raise _ _ _ mask e) in Hrun by done.
        discriminate Hrun. }
    rewrite (calculate_t2_maps_body_ok _ _ _ mask summary) in Hrun by done.
    destruct (IH _ _ Hrun) as (ms & Hms & Hlog).
    exists (mask :: ms). split; [by constructor|].
    rewrite Hlog, log_with_log, <- app_assoc. done.
Qed.

Lemma own_masks {V} (d : Dict V) (ms : list V) :
  NoDup (dict_keys d) →
  Forall2 (λ k m, dict_get k d = Some m) (dict_keys d) ms →
  zip (dict_keys d) ms = d.
Proof.
  intros Hnd Hms.
  assert (ms = d.*2) as ->; [|apply zip_fst_snd].
  assert (∀ (l : Dict V) ms',
            (∀ kv, kv ∈ l → kv ∈ d) →
            Forall2 (λ k m, dict_get k d = Some m) l.*1 ms' → ms' = l.*2) as Hgen.
  { induction l as [|[k v] l IH]; intros ms' Hsub Hall; simpl in Hall.
    - by apply Forall2_nil_inv_l in Hall.
    - apply Forall2_cons_inv_l in Hall as (m & ms'' & Hm & Hall & ->).
      rewrite (dict_get_own d k v) in Hm by (done || apply Hsub, list_elem_of_here).
      injection Hm as <-. simpl. f_equal. apply IH; [|done].
      intros kv Hkv. apply Hsub. by apply elem_of_cons; right. }
  by apply Hgen.
Qed.

(** X9. When [calculate_t2_maps] returns, it has loaded the series once,
    with the given path and extension, and made exactly one summary call per
    entry of the mask mapping, in the mapping's order and with the entry's
    own mask. *)
Theorem X9_one_summary_call_per_mask
    dicom_path save_path dicom_ext masks (w w' : World) t2_vals :
  calculate_t2_maps dicom_path save_path dicom_ext masks w = (w', Return t2_vals) →
  NoDup (dict_keys masks) →
  ∃ loaded t2_map new,
    svc_load_dicom S (fs w) dicom_path dicom_ext = Return loaded ∧
    svc_calc_dess_t2_map S loaded.1 loaded.2 = Return t2_map ∧
    log w' = log w ++ new ∧
    loads new = [(dicom_path, dicom_ext)] ∧
    summary_calls new = summary_call_of t2_map <$> masks.
Proof.
  intros Hrun Hnd.
  destruct (calculate_t2_maps_returned _ _ _ _ _ _ _ Hrun)
    as (loaded & t2_map & Hload & Hcalc).
  rewrite (calculate_t2_maps_loaded _ _ _ _ _ _ _ Hload Hcalc) in Hrun.
  set (w0 := with_log w _) in *.
  destruct (for_in (dict_keys masks) (calculate_t2_maps_body masks t2_map) (w0, dict_empty))
    as [[w1 d1] [[]|e]] eqn:Hloop; [|discriminate Hrun].
  injection Hrun as <- _.
  destruct (t2_loop_returned _ _ _ _ _ _ _ Hloop) as (ms & Hms & Hlog).
  rewrite (own_masks masks ms Hnd Hms) in Hlog.
  exists loaded, t2_map. eexists. split_and!; [done|done| | |].
  - rewrite Hlog. unfold w0. rewrite log_with_log, <- app_assoc. reflexivity.
  - unfold loads. rewrite omap_app. simpl. f_equal.
    clear. induction masks as [|km l IH]; [done|exact IH].
  - unfold summary_calls. rewrite omap_app. simpl.
    clear. induction masks as [|km l IH]; [done|].
    simpl. f_equal. exact IH.
Qed.

(** ** Further properties: [parse_args] *)

(** The two ways a run of [parse_args] goes: every argument check passes,
    the save directory is there or has been created, and it is the run of
    [generate_mask] followed by lines 150-152; or it raises before
    anything is loaded, having at most called [os.makedirs]. *)
Lemma parse_args_account (argv : CommandLine) (w : World) :
  let gpu := nargs_optional None (arg_gpu argv) in
  if validated argv w then
    ∃ dicom_path save,
      arg_dicom argv = Some dicom_path ∧
      nargs_optional (Some "") (arg_save argv) = Some save ∧
      parse_args argv w
      = after_generate_mask argv
          (generate_mask dicom_path (resolve_save_path save dicom_path)
             (tissue_strs_of (parser_parse_args argv))
             (nargs_optional None (arg_ext argv))
             (if arg_dess argv then NUM_ECHOS S else 1%Z)
             (with_BATCH_SIZE (nargs_optional (Some 32%Z) (arg_batch_size argv))
                (save_dir_step (resolve_save_path save dicom_path) (with_gpu gpu w)).1))
  else
    ∃ e w' new,
      parse_args argv w = (w', Raise e) ∧
      environ w' = environ (with_gpu gpu w) ∧
      BATCH_SIZE w' = BATCH_SIZE w ∧
      log w' = log w ++ new ∧
      Forall (λ ev, is_makedirs ev = true) new.
Proof.
  intros gpu.
  destruct (with_gpu_same gpu w) as (Hfs & Hlog & Hbatch).
  rewrite parse_args_eq. unfold parse_args_run, validated.
  cbn [args_save parser_parse_args]. fold gpu.
  destruct (arg_dicom argv) as [dicom_path|].
  2:{ eexists _, _, []. rewrite app_nil_r. by split_and!. }
  destruct (nargs_optional (Some "") (arg_save argv)) as [save|].
  2:{ destruct (bool_decide (fs w !! dicom_path = Some Dir));
        eexists _, _, []; rewrite app_nil_r; by split_and!. }
  destruct (bool_decide (fs w !! dicom_path = Some Dir)); cbn [andb].
  2:{ eexists _, _, []. rewrite app_nil_r. by split_and!. }
  set (save_path := resolve_save_path save dicom_path).
  rewrite <- (proj2 (proj2 (proj2 (save_dir_step_gpu gpu save_path w)))).
  rewrite save_dir_step_ready.
  destruct (save_dir_step_log save_path (with_gpu gpu w)) as (new & Hnew & Hnew_ok).
  destruct (save_dir_step_frame save_path (with_gpu gpu w)) as (Henv & Hb & _).
  rewrite Hlog in Hnew. rewrite Hbatch in Hb.
  destruct (save_dir_step save_path (with_gpu gpu w)) as [w2 [[]|e]] eqn:Hstep;
    cbn [fst snd andb] in *.
  - destruct (negb (arg_dess argv) && arg_t2 argv); cbn [negb].
    + by eexists _, _, new.
    + exists dicom_path, save. split_and!; [done|done|].
      fold save_path. by rewrite Hstep.
  - by eexists _, _, new.
Qed.

(** X10. A GPU identifier given with [--gpu] is in the environment variable
    [CUDA_VISIBLE_DEVICES] at the end of every run, whatever its outcome,
    also a run that fails its first check; nothing else is changed in
    the environment, and without [--gpu] it is left as it was. *)
Theorem X10_gpu_goes_to_environment (argv : CommandLine) (w : World) :
  environ (parse_args argv w).1
  = match args_gpu (parser_parse_args argv) with
    | Some gpu => <["CUDA_VISIBLE_DEVICES" := gpu]> (environ w)
    | None => environ w
    end.
Proof.
  cbn [args_gpu parser_parse_args].
  pose proof (parse_args_account argv w) as Hrun. cbv zeta in Hrun.
  assert (environ (with_gpu (nargs_optional None (arg_gpu argv)) w)
          = match nargs_optional None (arg_gpu argv) with
            | Some gpu => <["CUDA_VISIBLE_DEVICES" := gpu]> (environ w)
            | None => environ w
            end) as <- by (by destruct (nargs_optional None (arg_gpu argv))).
  destruct (validated argv w).
  - destruct Hrun as (dicom_path & save & _ & _ & ->).
    rewrite after_generate_mask_world.
    rewrite (proj1 (generate_mask_frame _ _ _ _ _ _)).
    exact (proj1 (save_dir_step_frame _ _)).
  - by destruct Hrun as (e & w' & new & -> & Henv & _).
Qed.

(** X11. The batch size is applied exactly when every argument check
    passes and the save directory is there or [os.makedirs] creates it:
    then [models.BATCH_SIZE] is the value of [--batch_size] (32 when the
    option is absent) from before the first collaborator call of mask
    generation to the end of the run; when a check or [os.makedirs] fails
    it is left as it was. *)
Theorem X11_batch_size_applied_after_validation (argv : CommandLine) (w : World) :
  BATCH_SIZE (parse_args argv w).1
  = if validated argv w
    then args_batch_size (parser_parse_args argv)
    else BATCH_SIZE w.
Proof.
  cbn [args_batch_size parser_parse_args].
  pose proof (parse_args_account argv w) as Hrun. cbv zeta in Hrun.
  destruct (validated argv w).
  - destruct Hrun as (dicom_path & save & _ & _ & ->).
    rewrite after_generate_mask_world.
    by rewrite (proj2 (generate_mask_frame _ _ _ _ _ _)).
  - by destruct Hrun as (e & w' & new & -> & _ & Hb & _).
Qed.

Lemma omap_makedirs_only {A} (f : Event → option A) (new : list Event) :
  (∀ path, f (EvMakedirs path) = None) →
  Forall (λ ev, is_makedirs ev = true) new → omap f new = [].
Proof.
  intros Hf. induction 1 as [|ev new Hev _ IH]; [done|].
  destruct ev; try discriminate Hev. simpl. by rewrite Hf.
Qed.

(** X12. [parse_args] loads the DICOM series only after every argument
    check has passed and the save directory is there or has been created:
    a run in which a check or [os.makedirs] fails raises and makes no load
    call, and a run in which they all pass makes its first, and without
    [--t2] its only, load call on the dicom path with the extension of
    [--ext]. *)
Theorem X12_load_only_after_validation (argv : CommandLine) (w : World) :
  ∃ new,
    log (parse_args argv w).1 = log w ++ new ∧
    (validated argv w = false →
     loads new = [] ∧ ∃ e, (parse_args argv w).2 = Raise e) ∧
    (validated argv w = true →
     ∃ dicom_path later,
       arg_dicom argv = Some dicom_path ∧
       loads new = (dicom_path, args_ext (parser_parse_args argv)) :: later ∧
       (arg_t2 argv = false → later = [])).
Proof.
  cbn [args_ext parser_parse_args].
  pose proof (parse_args_account argv w) as Hrun. cbv zeta in Hrun.
  destruct (validated argv w).
  - destruct Hrun as (dicom_path & save & Hd & _ & ->).
    rewrite after_generate_mask_world.
    set (w1 := with_gpu _ w).
    set (save_path := resolve_save_path save dicom_path).
    destruct (generate_mask_readings dicom_path save_path
                (tissue_strs_of (parser_parse_args argv))
                (nargs_optional None (arg_ext argv))
                (if arg_dess argv then NUM_ECHOS S else 1%Z)
                (with_BATCH_SIZE (nargs_optional (Some 32%Z) (arg_batch_size argv))
                   (save_dir_step save_path w1).1))
      as (new & -> & Hloads & _).
    destruct (save_dir_step_log save_path w1) as (pre & Hpre & Hpre_ok).
    exists (pre ++ new). split_and!; [|done|].
    + simpl. rewrite Hpre. unfold w1.
      rewrite (proj1 (proj2 (with_gpu_same _ w))). by rewrite <- app_assoc.
    + intros _. exists dicom_path, []. split_and!; [done| |done].
      unfold loads in *. rewrite omap_app, Hloads.
      by rewrite (omap_makedirs_only _ pre).
  - destruct Hrun as (e & w' & new & -> & _ & _ & Hlog & Hnew).
    exists new. split_and!; [done| |done].
    intros _. split; [|by exists e].
    by apply omap_makedirs_only.
Qed.

(** X13. In every run of [parse_args], a [split_volume] call asks for the
    echo count of the acquisition: [dess_utils.NUM_ECHOS] with [--dess] and
    1 without. *)
Theorem X13_echo_count_follows_dess (argv : CommandLine) (w : World) :
  ∃ new,
    log (parse_args argv w).1 = log w ++ new ∧
    ∀ volume echos,
      (volume, echos) ∈ splits new →
      echos = if arg_dess argv then NUM_ECHOS S else 1%Z.
Proof.
  pose proof (parse_args_account argv w) as Hrun. cbv zeta in Hrun.
  destruct (validated argv w).
  - destruct Hrun as (dicom_path & save & Hd & _ & ->).
    rewrite after_generate_mask_world.
    set (w1 := with_gpu _ w).
    set (save_path := resolve_save_path save dicom_path).
    destruct (generate_mask_readings dicom_path save_path
                (tissue_strs_of (parser_parse_args argv))
                (nargs_optional None (arg_ext argv))
                (if arg_dess argv then NUM_ECHOS S else 1%Z)
                (with_BATCH_SIZE (nargs_optional (Some 32%Z) (arg_batch_size argv))
                   (save_dir_step save_path w1).1))
      as (new & -> & _ & _ & Hsplits).
    destruct (save_dir_step_log save_path w1) as (pre & Hpre & Hpre_ok).
    exists (pre ++ new). split.
    + simpl. rewrite Hpre. unfold w1.
      rewrite (proj1 (proj2 (with_gpu_same _ w))). by rewrite <- app_assoc.
    + intros volume echos Hin. unfold splits in Hin.
      rewrite omap_app, (omap_makedirs_only _ pre) in Hin by done.
      by apply (Hsplits volume).
  - destruct Hrun as (e & w' & new & -> & _ & _ & Hlog & Hnew).
    exists new. split; [done|]. intros volume echos Hin.
    unfold splits in Hin. rewrite (omap_makedirs_only _ new) in Hin by done.
    by apply elem_of_nil in Hin.
Qed.

(** X14. [-s] given without a value does not fall back to the default: the
    save path is then [None], and once the dicom path has passed its check
    the run ends with the [TypeError] of [os.path.isdir(None)], before any
    directory is created or anything is loaded. *)
Theorem X14_save_option_without_value_raises_type_error
    (argv : CommandLine) (w : World) dicom_path :
  arg_dicom argv = Some dicom_path →
  fs w !! dicom_path = Some Dir →
  arg_save argv = Some None →
  args_save (parser_parse_args argv) = None ∧
  ∃ w',
    parse_args argv w = (w', Raise (TypeError ISDIR_NONE_MSG)) ∧
    fs w' = fs w ∧ log w' = log w.
Proof.
  intros Hd Hdir Hsave.
  destruct (with_gpu_same (nargs_optional None (arg_gpu argv)) w) as (Hfs & Hlog & _).
  cbn [args_save parser_parse_args]. rewrite Hsave. split; [done|].
  eexists. rewrite parse_args_eq. unfold parse_args_run.
  rewrite Hd, Hsave, bool_decide_eq_true_2 by done. done.
Qed.

(** X15. When the save path exists and is not a directory, the run ends in
    [os.makedirs] with [FileExistsError]: the disk is unchanged and nothing
    is loaded, whatever the other flags. *)
Theorem X15_save_path_is_a_file (argv : CommandLine) (w : World) dicom_path save :
  arg_dicom argv = Some dicom_path →
  fs w !! dicom_path = Some Dir →
  args_save (parser_parse_args argv) = Some save →
  fs w !! resolve_save_path save dicom_path = Some File →
  ∃ w',
    parse_args argv w
    = (w', Raise (FileExistsError (resolve_save_path save dicom_path))) ∧
    fs w' = fs w ∧
    log w' = log w ++ [EvMakedirs (resolve_save_path save dicom_path)].
Proof.
  intros Hd Hdir Hsave Hfile. cbn [args_save parser_parse_args] in Hsave.
  destruct (with_gpu_same (nargs_optional None (arg_gpu argv)) w) as (Hfs & Hlog & _).
  eexists. rewrite (parse_args_save_dir argv w dicom_path save Hd Hdir Hsave).
  cbv zeta. unfold save_dir_step. rewrite Hfs, Hfile. cbn [fst snd].
  split_and!; [reflexivity|exact Hfs|].
  cbn [log with_failed_makedirs]. by rewrite Hlog.
Qed.

(** X16. When the save path is an existing directory, which it always is
    in the default case, where it is the dicom path, no run creates a
    directory, whatever its outcome: the files it writes are mask files of
    requested tissues and nothing else on the disk changes.  When the flags
    are not [--t2] without [--dess] and mask generation completes, the
    first call of the run is the load and the masks are written into that
    directory, one per requested tissue in request order, so in the default
    case next to the DICOM files, and without [--t2] the run returns
    normally. *)
Theorem X16_masks_go_into_existing_save_dir
    (argv : CommandLine) (w : World) dicom_path save :
  arg_dicom argv = Some dicom_path →
  fs w !! dicom_path = Some Dir →
  args_save (parser_parse_args argv) = Some save →
  fs w !! resolve_save_path save dicom_path = Some Dir →
  let save_path := resolve_save_path save dicom_path in
  let tissue_strs := tissue_strs_of (parser_parse_args argv) in
  let w' := (parse_args argv w).1 in
  (save = "" → save_path = dicom_path) ∧
  (∃ new,
      log w' = log w ++ new ∧
      makedirs_calls new = [] ∧
      ∀ path mask, (path, mask) ∈ writes new →
                   path ∈ mask_path save_path <$> tissue_strs) ∧
  (∀ path, path ∉ mask_path save_path <$> tissue_strs → fs w' !! path = fs w !! path) ∧
  (∀ loaded first volume ms,
      (arg_t2 argv = true → arg_dess argv = true) →
      preprocessed w dicom_path (args_ext (parser_parse_args argv))
        (if arg_dess argv then NUM_ECHOS S else 1%Z) loaded first volume →
      Forall2 (segments_ok (args_batch_size (parser_parse_args argv)) volume)
        tissue_strs ms →
      log w' = log w
                 ++ preamble_events dicom_path (args_ext (parser_parse_args argv))
                      (if arg_dess argv then NUM_ECHOS S else 1%Z) loaded.1 first
                 ++ concat (iteration_events volume save_path <$> zip tissue_strs ms) ∧
      makedirs_calls (log w') = makedirs_calls (log w) ∧
      writes (log w') = writes (log w) ++ zip (mask_path save_path <$> tissue_strs) ms ∧
      (arg_t2 argv = false → (parse_args argv w).2 = Return tt)).
Proof.
  intros Hd Hdir Hsave Hsdir save_path tissue_strs w'.
  cbn [args_save args_ext args_batch_size parser_parse_args] in *.
  destruct (with_gpu_same (nargs_optional None (arg_gpu argv)) w) as (Hfs & Hlog & _).
  set (w1 := with_gpu _ w) in *.
  assert (save_dir_step save_path w1 = (w1, Return tt)) as Hstep
    by (apply save_dir_step_dir; by rewrite Hfs).
  destruct (parse_args_after_save_dir argv w _ dicom_path save Hd Hdir Hsave Hstep)
    as [(new & Hnew & Hmk & Hwrites) Hdisk].
  fold w' in Hnew, Hdisk.
  split_and!.
  - intros ->. done.
  - exists new. by rewrite Hnew, Hlog.
  - intros path Hpath. by rewrite Hdisk, Hfs.
  - intros loaded first volume ms Hflags Hpre Hok.
    assert (negb (arg_dess argv) && arg_t2 argv = false) as Hcheck.
    { destruct (arg_dess argv), (arg_t2 argv); try done. by discriminate Hflags. }
    subst w'. rewrite (parse_args_save_dir argv w dicom_path save Hd Hdir Hsave).
    cbv zeta. fold save_path w1 tissue_strs. rewrite Hstep, Hcheck. cbn [fst snd].
    set (w2 := with_BATCH_SIZE _ _).
    rewrite (generate_mask_completes _ _ _ _ _ w2 loaded first volume ms);
      [|apply (preprocessed_fs w _ _ _ _ _ _ _ (eq_sym Hfs) Hpre)|exact Hok].
    unfold after_generate_mask.
    set (w3 := segmented _ _ _ _).
    assert (log w3 = log w
                       ++ preamble_events dicom_path (nargs_optional None (arg_ext argv))
                            (if arg_dess argv then NUM_ECHOS S else 1%Z) loaded.1 first
                       ++ concat (iteration_events volume save_path <$> zip tissue_strs ms))
      as Hlog3.
    { unfold w3. rewrite log_segmented, log_with_log. simpl.
      by rewrite Hlog, <- !app_assoc. }
    assert ((if arg_dess argv && arg_t2 argv
             then (w3, Raise (TypeError BOOL_NOT_CALLABLE_MSG))
             else (w3, Return tt))
            = (w3, if arg_dess argv && arg_t2 argv
                   then Raise (TypeError BOOL_NOT_CALLABLE_MSG)
                   else Return tt)) as ->
      by (by destruct (arg_dess argv && arg_t2 argv)).
    cbn [fst snd].
    split_and!.
    + exact Hlog3.
    + rewrite Hlog3, !makedirs_calls_app, makedirs_calls_iterations.
      apply app_nil_r.
    + rewrite Hlog3, !writes_app, writes_iterations, zip_paths. done.
    + intros ->. by rewrite andb_false_r.
Qed.


End Orchestrator.

Arguments fs {S} w.
Arguments environ {S} w.
Arguments BATCH_SIZE {S} w.
Arguments log {S} w.
Arguments EvPrint {S} line.
Arguments EvMakedirs {S} path.
Arguments EvLoadDicom {S} path ext.
Arguments EvSplitVolume {S} volume echos.
Arguments EvWhitenVolume {S} volume.
Arguments EvGenerateMask {S} volume tissue.
Arguments EvWrite3d {S} path mask.
Arguments EvCalcT2Map {S} volume ref_dicom.
Arguments EvGetTissueT2 {S} t2_map mask tissue.

(** ** The claims on concrete runs *)


(** C1.  [-d scan --dess --t2] on a disk where [scan] is a directory: mask
    generation completes and writes the four masks, and the call of line
    152 then raises [TypeError], the name [calculate_t2_maps] being the
    local [bool]; no T2 call is made.  Called as the module-level function,
    the T2 flow returns a summary per mask on the same world. *)
Theorem C1_t2_call_raises_type_error :
  let S := Demo.services in
  let argv := Demo.cmd (Some "scan") None false false false false true true in
  let run := parse_args S argv (world_of S ["scan"]) in
  arg_dess argv = true ∧ arg_t2 argv = true ∧
  (writes S (log run.1)).*1
  = ["scan/femoral_cartilage.tiff"; "scan/tibial_cartilage.tiff";
     "scan/meniscus.tiff"; "scan/patellar_cartilage.tiff"] ∧
  run.2 = Raise (TypeError "'bool' object is not callable") ∧
  Forall (λ ev, is_t2_call S ev = false) (log run.1) ∧
  ∃ masks w' t2_vals,
    dict_keys masks = all_tissues S ∧
    py_call S (PyFunction S (calculate_t2_maps S)) "scan" "scan" None masks run.1
    = (w', Return t2_vals) ∧
    dict_keys t2_vals = dict_keys masks.
Proof.
  split_and!; try (vm_compute; reflexivity).
  - vm_compute. repeat constructor.
  - exists (dict_update [] (zip (all_tissues Demo.services) (replicate 4 Demo.first_echo))).
    eexists _, _. split_and!; [reflexivity|vm_compute; reflexivity|reflexivity].
Qed.




(** C3 on [-d scan] where the disk has no [scan]. *)
Lemma C3_witness :
  let S := Demo.services in
  let argv := Demo.cmd (Some "scan") None false false false false false false in
  let w := world_of S ["elsewhere"] in
  ∃ w', parse_args S argv w
        = (w', Raise (NotADirectoryError "Directory 'scan' does not exist")) ∧
        fs w' = fs w ∧ log w' = log w.
Proof.
  intros S argv w.
  apply (proj1 (C3_bad_dicom_path_raises_before_makedirs S argv w) "scan").
  - reflexivity.
  - vm_compute. discriminate.
Defined.

(** C4 on the faulty model: the meniscus iteration stops at the assertion
    and writes nothing, and the run of [generate_mask] for the four tissues
    halts there, with the femoral and tibial masks written and the patellar
    cartilage never segmented. *)
Lemma C4_witness :
  let S := Demo.faulty_services in
  let w := world_of S ["scan"] in
  (∃ w', generate_mask_body S Demo.white "scan" "meniscus" (w, dict_empty)
         = ((w', dict_empty), Raise AssertionError) ∧
         fs w' = fs w ∧ writes S (log w') = writes S (log w)) ∧
  ∃ w' new,
    generate_mask S "scan" "scan"
      (["femoral_cartilage"; "tibial_cartilage"] ++ "meniscus" :: ["patellar_cartilage"])
      None 1 w
    = (w', Raise AssertionError) ∧
    log w' = log w ++ new ∧
    writes S new
    = [("scan/femoral_cartilage.tiff", Demo.mask); ("scan/tibial_cartilage.tiff", Demo.mask)] ∧
    ("meniscus" ∉ ["femoral_cartilage"; "tibial_cartilage"]) ∧
    segmentation_calls S new
    = [(Demo.white, "femoral_cartilage"); (Demo.white, "tibial_cartilage");
       (Demo.white, "meniscus")].
Proof.
  intros S w.
  pose proof (C4_shape_assertion_guards_write S Demo.white "scan" "meniscus" w dict_empty)
    as (Hstops & _ & _ & Hhalts).
  split.
  - apply (Hstops Demo.bad_mask).
    + reflexivity.
    + vm_compute. discriminate.
  - apply (Hhalts "scan" None 1%Z (Demo.raw, "ref:scan") Demo.raw Demo.white
             ["femoral_cartilage"; "tibial_cartilage"] [Demo.mask; Demo.mask]
             ["patellar_cartilage"] Demo.bad_mask).
    + split_and!; [reflexivity|by exists []|reflexivity].
    + repeat constructor.
    + reflexivity.
    + vm_compute. discriminate.
Defined.


(** C6 on a two-echo run: the meniscus is segmented on the whitened first
    echo. *)
Lemma C6_witness :
  let S := Demo.services in
  let w := world_of S ["scan"] in
  ∃ new,
    log (generate_mask S "scan" "scan" ["meniscus"] None 2 w).1 = log w ++ new ∧
    (Demo.white_first_echo, "meniscus") ∈ segmentation_calls S new.
Proof.
  intros S w.
  destruct (C6_segmentation_input_is_whitened_first_echo S "scan" "scan" ["meniscus"]
              None 2 w) as (new & Hlog & _ & Hcalled).
  exists new. split; [exact Hlog|].
  apply (Hcalled (Demo.raw, "ref:scan") Demo.first_echo Demo.white_first_echo "meniscus" []).
  - split_and!; [reflexivity|by exists [Demo.first_echo]|reflexivity].
  - reflexivity.
Defined.

(** C7 on a mapping with two masks. *)
Lemma C7_witness :
  let S := Demo.services in
  let w := world_of S ["scan"] in
  let masks := [("femoral_cartilage", Demo.mask); ("meniscus", Demo.mask)] in
  ∃ w' t2_vals,
    calculate_t2_maps S "scan" "scan" None masks w = (w', Return t2_vals) ∧
    dict_keys t2_vals = ["femoral_cartilage"; "meniscus"].
Proof.
  intros S w masks.
  destruct (C7_t2_keys_match_masks_and_raw_volume S "scan" "scan" None masks w)
    as [Hkeys Hreturns].
  destruct (Hreturns (Demo.raw, "ref:scan") ([4; 8; 8]%nat, "ref:scan") eq_refl eq_refl)
    as (w' & t2_vals & Hrun).
  { intros k m _. eexists. reflexivity. }
  exists w', t2_vals. split; [exact Hrun|].
  apply (Hkeys w' t2_vals Hrun). apply (bool_decide_unpack _). by vm_compute.
Defined.

(** C8, as stated, fails in the default case: with no [-s], the save path
    is the dicom path; when it does not exist the run ends with
    [NotADirectoryError], the directory is not created and no mask is
    written. *)
Lemma C8_counterexample :
  let S := Demo.services in
  let argv := Demo.cmd (Some "scan") None true false true false false false in
  let w := world_of S [] in
  let run := parse_args S argv w in
  args_save (parser_parse_args S argv) = Some "" ∧
  resolve_save_path "" "scan" = "scan" ∧
  fs w !! "scan" = None ∧
  run.2 = Raise (NotADirectoryError "Directory 'scan' does not exist") ∧
  fs run.1 !! "scan" = None ∧
  log run.1 = [].
Proof. by vm_compute. Qed.

(** C8 on [-d scan -s out -f -m]: [out] is created and holds the two mask
    files.  On [-d scan -s out] with the faulty model: [out] is created by
    the first call of the run, which then stops at the meniscus with the
    assertion failure. *)
Lemma C8_witness :
  let S := Demo.services in
  let argv := Demo.cmd (Some "scan") (Some (Some "out")) true false true false false false in
  let w := world_of S ["scan"] in
  let run := parse_args S argv w in
  let S' := Demo.faulty_services in
  let argv' := Demo.cmd (Some "scan") (Some (Some "out"))
                 false false false false false false in
  let w' := world_of S' ["scan"] in
  let run' := parse_args S' argv' w' in
  (fs w !! "out" = None ∧
   fs run.1 !! "out" = Some Dir ∧
   writes S (log run.1)
   = [("out/femoral_cartilage.tiff", Demo.mask); ("out/meniscus.tiff", Demo.mask)] ∧
   fs run.1 !! "out/femoral_cartilage.tiff" = Some File ∧
   fs run.1 !! "out/meniscus.tiff" = Some File ∧
   run.2 = Return tt) ∧
  (fs w' !! "out" = None ∧
   run'.2 = Raise AssertionError ∧
   fs run'.1 !! "out" = Some Dir ∧
   ∃ later, log run'.1 = log w' ++ EvMakedirs "out" :: later ∧
            makedirs_calls S' later = []).
Proof.
  intros S argv w run S' argv' w' run'. split.
  - destruct (C8_save_dir_created_then_masks_written S argv w "scan" "out" [])
      as (_ & Hcreated & _ & Hother & Hcompletes); try reflexivity.
    destruct (Hcompletes (Demo.raw, "ref:scan") Demo.raw Demo.white [Demo.mask; Demo.mask])
      as (_ & Hwrites & Hfiles & Hresult).
    + discriminate.
    + split_and!; [reflexivity|by exists []|reflexivity].
    + repeat constructor.
    + subst run. split_and!.
      * reflexivity.
      * rewrite (Hother "out"); [exact Hcreated|].
        apply (bool_decide_unpack _). by vm_compute.
      * exact Hwrites.
      * apply (Hfiles "femoral_cartilage"). apply (bool_decide_unpack _). by vm_compute.
      * apply (Hfiles "meniscus"). apply (bool_decide_unpack _). by vm_compute.
      * exact Hresult.
  - destruct (C8_save_dir_created_then_masks_written S' argv' w' "scan" "out" [])
      as (_ & Hcreated & (later & Hlog & Hmk & _) & Hother & _); try reflexivity.
    subst run'. split_and!.
    + reflexivity.
    + vm_compute. reflexivity.
    + rewrite (Hother "out"); [exact Hcreated|].
      apply (bool_decide_unpack _). by vm_compute.
    + exists later. split; [exact Hlog|exact Hmk].
Defined.

(** C9, as stated, fails: on [-d scan -s blocker/out --t2], where [scan]
    is a directory and [blocker] a regular file, the save path does not
    exist and [os.makedirs] raises [NotADirectoryError]; the run ends with
    that error, not with the configuration error, and the save directory
    is not on disk. *)
Lemma C9_counterexample :
  let S := Demo.services in
  let argv := Demo.cmd (Some "scan") (Some (Some "blocker/out"))
                false false false false false true in
  let w := world_with S [("scan", Dir); ("blocker", File)] in
  let run := parse_args S argv w in
  arg_dicom argv = Some "scan" ∧
  fs w !! "scan" = Some Dir ∧
  args_save (parser_parse_args S argv) = Some "blocker/out" ∧
  fs w !! "blocker/out" = None ∧
  arg_t2 argv = true ∧ arg_dess argv = false ∧
  run.2 = Raise (NotADirectoryError "[Errno 20] Not a directory: 'blocker/out'") ∧
  run.2 ≠ Raise (ValueError T2_WITHOUT_DESS_MSG) ∧
  fs run.1 !! "blocker/out" = None ∧
  log run.1 = [EvMakedirs "blocker/out"].
Proof. by vm_compute. Qed.

(** C9 on [-d scan -s out --t2]: [out] is on disk after the configuration
    error.  On [-d scan -s blocker/out --t2], where [blocker] is a regular
    file: the error of [os.makedirs]. *)
Lemma C9_witness :
  let S := Demo.services in
  let argv := Demo.cmd (Some "scan") (Some (Some "out")) false false false false false true in
  let w := world_of S ["scan"] in
  let argv' := Demo.cmd (Some "scan") (Some (Some "blocker/out"))
                 false false false false false true in
  let w' := world_with S [("scan", Dir); ("blocker", File)] in
  (∃ w1, parse_args S argv w = (w1, Raise (ValueError T2_WITHOUT_DESS_MSG)) ∧
         fs w !! "out" = None ∧ fs w1 !! "out" = Some Dir ∧
         fs w1 !! "scan" = Some Dir ∧
         log w1 = log w ++ [EvMakedirs "out"]) ∧
  (∃ w1, parse_args S argv' w'
         = (w1, Raise (NotADirectoryError "[Errno 20] Not a directory: 'blocker/out'")) ∧
         fs w1 = fs w' ∧
         log w1 = log w' ++ [EvMakedirs "blocker/out"]).
Proof.
  intros S argv w argv' w'. split.
  - destruct (proj1 (C9_config_error_after_save_dir_created S argv w "scan" "out"
                       eq_refl eq_refl eq_refl eq_refl eq_refl eq_refl) [] eq_refl)
      as (w1 & Hrun & _ & Hdir & Hkept & Hlog).
    exists w1. split_and!; [exact Hrun|reflexivity|exact Hdir| |exact Hlog].
    apply Hkept. reflexivity.
  - apply (proj2 (C9_config_error_after_save_dir_created S argv' w' "scan" "blocker/out"
                    eq_refl eq_refl eq_refl eq_refl eq_refl eq_refl) []).
    vm_compute. reflexivity.
Defined.

(** C10 on the faulty model: [generate_mask] stops at the meniscus with
    the femoral and tibial masks written and on disk, and no file for the
    meniscus. *)
Lemma C10_witness :
  let S := Demo.faulty_services in
  let w := world_of S ["scan"] in
  ∃ w' (masks : Dict (Volume S)),
    generate_mask S "scan" "scan"
      (["femoral_cartilage"; "tibial_cartilage"] ++ "meniscus" :: ["patellar_cartilage"])
      None 1 w
    = (w', Raise AssertionError) ∧
    writes S (log w')
    = [("scan/femoral_cartilage.tiff", Demo.mask); ("scan/tibial_cartilage.tiff", Demo.mask)] ∧
    fs w' !! "scan/femoral_cartilage.tiff" = Some File ∧
    fs w' !! "scan/tibial_cartilage.tiff" = Some File ∧
    fs w' !! "scan/meniscus.tiff" = None ∧
    dict_keys masks = ["femoral_cartilage"; "tibial_cartilage"].
Proof.
  intros S w.
  destruct (C10_masks_written_before_failure_remain S "scan" "scan" None 1%Z w
              (Demo.raw, "ref:scan") Demo.raw Demo.white
              ["femoral_cartilage"; "tibial_cartilage"] [Demo.mask; Demo.mask]
              "meniscus" ["patellar_cartilage"] Demo.bad_mask)
    as (w' & masks & Hrun & _ & _ & Hwrites & Hfiles & Hother & _ & _ & Hkeys).
  - split_and!; [reflexivity|by exists []|reflexivity].
  - repeat constructor.
  - reflexivity.
  - vm_compute. discriminate.
  - exists w', masks. split_and!; [exact Hrun|exact Hwrites| | | |].
    + apply (Hfiles "femoral_cartilage"). apply (bool_decide_unpack _). by vm_compute.
    + apply (Hfiles "tibial_cartilage"). apply (bool_decide_unpack _). by vm_compute.
    + rewrite (Hother "scan/meniscus.tiff"); [reflexivity|].
      apply (bool_decide_unpack _). by vm_compute.
    + apply Hkeys. apply (bool_decide_unpack _). by vm_compute.
Defined.

(** ** The further properties on concrete runs *)

(** X1 on [-s out] for the femoral cartilage and the meniscus. *)
Lemma X1_witness :
  let S := Demo.services in
  let w := world_of S ["scan"] in
  let run := generate_mask S "scan" "out" ["femoral_cartilage"; "meniscus"] None 1 w in
  ∃ new,
    log run.1 = log w ++ new ∧
    (writes S new).*1 = ["out/femoral_cartilage.tiff"; "out/meniscus.tiff"] ∧
    fs run.1 !! "out/meniscus.tiff" = Some File.
Proof.
  intros S w run.
  destruct (X1_masks_written_under_save_path S "scan" "out"
              ["femoral_cartilage"; "meniscus"] None 1%Z w) as (new & Hlog & _ & Hret).
  destruct (Hret [("femoral_cartilage", Demo.mask); ("meniscus", Demo.mask)])
    as [Hpaths Hfiles].
  { vm_compute. reflexivity. }
  exists new. split_and!; [exact Hlog|exact Hpaths|].
  apply (Hfiles "meniscus"). apply (bool_decide_unpack _). by vm_compute.
Defined.

(** X2 on an echo count of 0, for which the example split returns no
    sub-volume. *)
Lemma X2_witness :
  let S := Demo.services in
  let w := world_of S ["scan"] in
  ∃ w',
    generate_mask S "scan" "out" ["meniscus"] None 0 w
    = (w', Raise (IndexError "list index out of range")) ∧
    fs w' = fs w ∧
    log w' = log w ++ [EvLoadDicom "scan" None;
                       EvSplitVolume (S := Demo.services) Demo.raw 0].
Proof.
  intros S w.
  apply (proj1 (proj2 (X2_preprocessing_failure_propagates S "scan" "out" ["meniscus"]
                         None 0 w))
           (Demo.raw, "ref:scan")).
  - reflexivity.
  - right. split; reflexivity.
Defined.

(** X3 on the crashing model: the femoral mask is written, the meniscus
    call raises, the patellar cartilage is never segmented. *)
Lemma X3_witness :
  let S := Demo.crashing_services in
  let w := world_of S ["scan"] in
  ∃ w' new,
    generate_mask S "scan" "out" (["femoral_cartilage"] ++ "meniscus" :: ["patellar_cartilage"])
      None 1 w
    = (w', Raise (CollaboratorError "out of memory")) ∧
    log w' = log w ++ new ∧
    writes S new = [("out/femoral_cartilage.tiff", Demo.mask)] ∧
    segmentation_calls S new
    = [(Demo.white, "femoral_cartilage"); (Demo.white, "meniscus")].
Proof.
  intros S w.
  apply (X3_segmentation_error_propagates S "scan" "out" None 1 w
           (Demo.raw, "ref:scan") Demo.raw Demo.white
           ["femoral_cartilage"] [Demo.mask] "meniscus" ["patellar_cartilage"]).
  - split_and!; [reflexivity|by exists []|reflexivity].
  - repeat constructor.
  - reflexivity.
Defined.

(** X4 on a run for two tissues. *)
Lemma X4_witness :
  let S := Demo.services in
  let w := world_of S ["scan"] in
  ∃ w' masks,
    generate_mask S "scan" "out" ["femoral_cartilage"; "meniscus"] None 1 w
    = (w', Return masks) ∧
    ∃ mask volume,
      dict_get "meniscus" masks = Some mask ∧
      svc_generate_mask S (BATCH_SIZE w) volume "meniscus" = Return mask ∧
      shape S volume = shape S mask.
Proof.
  intros S w.
  set (run := generate_mask S "scan" "out" ["femoral_cartilage"; "meniscus"] None 1 w).
  assert (run = (run.1, Return [("femoral_cartilage", Demo.mask); ("meniscus", Demo.mask)]))
    as Hrun by (vm_compute; reflexivity).
  exists run.1, [("femoral_cartilage", Demo.mask); ("meniscus", Demo.mask)].
  split; [exact Hrun|].
  destruct (X4_returned_masks_are_the_service_masks S _ _ _ _ _ _ _ _ Hrun)
    as (loaded & first & volume & _ & Hall & _).
  destruct (Hall "meniscus") as (mask & Hget & Hsvc & Hshape).
  { apply (bool_decide_unpack _). by vm_compute. }
  exists mask, volume. split_and!; [exact Hget|exact Hsvc|exact Hshape].
Defined.

(** X5 on a tissue list that names the meniscus twice. *)
Lemma X5_witness :
  let S := Demo.services in
  let w := world_of S ["scan"] in
  ∃ w' masks new,
    generate_mask S "scan" "out" ["meniscus"; "meniscus"] None 1 w = (w', Return masks) ∧
    NoDup (dict_keys masks) ∧
    log w' = log w ++ new ∧
    (writes S new).*1 = ["out/meniscus.tiff"; "out/meniscus.tiff"].
Proof.
  intros S w.
  set (run := generate_mask S "scan" "out" ["meniscus"; "meniscus"] None 1 w).
  assert (run = (run.1, Return [("meniscus", Demo.mask)])) as Hrun
    by (vm_compute; reflexivity).
  destruct (X5_returned_keys_unique_one_write_per_occurrence S _ _ _ _ _ _ _ _ Hrun)
    as (Hnd & new & volume & Hlog & Hwrites & _).
  exists run.1, [("meniscus", Demo.mask)], new.
  split_and!; [exact Hrun|exact Hnd|exact Hlog|exact Hwrites].
Defined.

(** X6 on a run for two tissues, and on a run whose load fails. *)
Lemma X6_witness :
  let S := Demo.services in
  let w := world_of S ["scan"] in
  (∃ new,
      log (generate_mask S "scan" "out" ["femoral_cartilage"; "meniscus"] None 1 w).1
      = log w ++ new ∧
      prints S new = [""; "Segmenting femoral_cartilage..."; "Segmenting meniscus..."]) ∧
  (∃ new,
      log (generate_mask S "elsewhere" "out" ["meniscus"] None 1 w).1 = log w ++ new ∧
      prints S new = []).
Proof.
  intros S w. split.
  - destruct (X6_one_progress_line_per_segmentation_call S "scan" "out"
                ["femoral_cartilage"; "meniscus"] None 1%Z w) as (new & Hlog & _ & Hruns).
    destruct (Hruns (Demo.raw, "ref:scan") Demo.raw Demo.white)
      as (Hprints & called & _ & _ & _).
    { split_and!; [reflexivity|by exists []|reflexivity]. }
    exists new. split; [exact Hlog|].
    rewrite Hprints. f_equal.
    change (log w) with (@nil (Event S)) in Hlog. simpl app in Hlog.
    rewrite <- Hlog. vm_compute. reflexivity.
  - destruct (X6_one_progress_line_per_segmentation_call S "elsewhere" "out"
                ["meniscus"] None 1%Z w) as (new & Hlog & Hstops & _).
    exists new. split; [exact Hlog|].
    apply Hstops. intros loaded first volume (Hload & _). discriminate Hload.
Defined.

(** X8 on a disk without the dicom directory: the load fails and no fit is
    attempted. *)
Lemma X8_witness :
  let S := Demo.services in
  let w := world_of S [] in
  ∃ w',
    calculate_t2_maps S "scan" "out" None [("meniscus", Demo.mask)] w
    = (w', Raise (CollaboratorError "no dicom series")) ∧
    log w' = log w ++ [EvPrint ""; EvPrint "Calculating T2 map..."; EvLoadDicom "scan" None].
Proof.
  intros S w.
  apply (proj1 (X8_t2_flow_failure_propagates S "scan" "out" None
                  [("meniscus", Demo.mask)] w)).
  reflexivity.
Defined.

(** X9 on a mapping with two masks. *)
Lemma X9_witness :
  let S := Demo.services in
  let w := world_of S ["scan"] in
  let masks := [("femoral_cartilage", Demo.mask); ("meniscus", Demo.bad_mask)] in
  ∃ w' t2_vals new t2_map,
    calculate_t2_maps S "scan" "out" None masks w = (w', Return t2_vals) ∧
    log w' = log w ++ new ∧
    loads S new = [("scan", None)] ∧
    summary_calls S new
    = [(t2_map, Demo.mask, "femoral_cartilage"); (t2_map, Demo.bad_mask, "meniscus")].
Proof.
  intros S w masks.
  set (run := calculate_t2_maps S "scan" "out" None masks w).
  assert (run = (run.1, Return [("femoral_cartilage", 3%nat); ("meniscus", 1%nat)]))
    as Hrun by (vm_compute; reflexivity).
  destruct (X9_one_summary_call_per_mask S "scan" "out" None masks w _ _ Hrun)
    as (loaded & t2_map & new & _ & _ & Hlog & Hloads & Hcalls).
  { apply (bool_decide_unpack _). by vm_compute. }
  exists run.1, [("femoral_cartilage", 3%nat); ("meniscus", 1%nat)], new, t2_map.
  split_and!; [exact Hrun|exact Hlog|exact Hloads|exact Hcalls].
Defined.

(** X11 on [-d scan -s blocker/out], where [blocker] is a regular file:
    [os.makedirs] raises and the batch size is left as it was; on
    [-d scan] it is 32 at the end of the run. *)
Lemma X11_witness :
  let S := Demo.services in
  let argv := Demo.cmd (Some "scan") (Some (Some "blocker/out"))
                false false false false false false in
  let w := world_with S [("scan", Dir); ("blocker", File)] in
  let argv' := Demo.cmd (Some "scan") None false false false false false false in
  validated S argv w = false ∧
  BATCH_SIZE (parse_args S argv w).1 = None ∧
  validated S argv' w = true ∧
  BATCH_SIZE (parse_args S argv' w).1 = Some 32%Z.
Proof.
  intros S argv w argv'.
  split_and!; [reflexivity| |reflexivity|].
  - exact (X11_batch_size_applied_after_validation S argv w).
  - exact (X11_batch_size_applied_after_validation S argv' w).
Defined.

(** X12 on [-d scan -f]: one load, of [scan] with no extension.  On
    [-d scan -s blocker/out -f], where [blocker] is a regular file: the
    run raises in [os.makedirs] and loads nothing. *)
Lemma X12_witness :
  let S := Demo.services in
  let argv := Demo.cmd (Some "scan") None true false false false false false in
  let w := world_of S ["scan"] in
  let argv' := Demo.cmd (Some "scan") (Some (Some "blocker/out"))
                 true false false false false false in
  let w' := world_with S [("scan", Dir); ("blocker", File)] in
  (∃ new,
      log (parse_args S argv w).1 = log w ++ new ∧
      loads S new = [("scan", None)]) ∧
  (∃ new e,
      log (parse_args S argv' w').1 = log w' ++ new ∧
      loads S new = [] ∧
      (parse_args S argv' w').2 = Raise e).
Proof.
  intros S argv w argv' w'. split.
  - destruct (X12_load_only_after_validation S argv w) as (new & Hlog & _ & Hvalid).
    destruct (Hvalid eq_refl) as (dicom_path & later & Hd & Hloads & Hlater).
    injection Hd as <-. rewrite (Hlater eq_refl) in Hloads.
    exists new. split; [exact Hlog|exact Hloads].
  - destruct (X12_load_only_after_validation S argv' w') as (new & Hlog & Hfails & _).
    destruct (Hfails eq_refl) as (Hloads & e & Hraise).
    exists new, e. split_and!; [exact Hlog|exact Hloads|exact Hraise].
Defined.

(** X13 on [-d scan --dess]: the split asks for two echoes. *)
Lemma X13_witness :
  let S := Demo.services in
  let argv := Demo.cmd (Some "scan") None false false false false true false in
  let w := world_of S ["scan"] in
  (Demo.raw, 2%Z) ∈ splits S (log (parse_args S argv w).1) ∧
  2%Z = NUM_ECHOS S.
Proof.
  intros S argv w.
  destruct (X13_echo_count_follows_dess S argv w) as (new & Hlog & Hsplits).
  change (log w) with (@nil (Event S)) in Hlog. simpl app in Hlog.
  assert ((Demo.raw, 2%Z) ∈ splits S (log (parse_args S argv w).1)) as Hin.
  { vm_compute. apply list_elem_of_here. }
  split; [exact Hin|].
  rewrite Hlog in Hin. exact (Hsplits _ _ Hin).
Defined.

(** X14 on [-d scan -s]. *)
Lemma X14_witness :
  let S := Demo.services in
  let argv := Demo.cmd (Some "scan") (Some None) false false false false false false in
  let w := world_of S ["scan"] in
  ∃ w', parse_args S argv w = (w', Raise (TypeError ISDIR_NONE_MSG)) ∧
        fs w' = fs w ∧ log w' = log w.
Proof.
  intros S argv w.
  apply (X14_save_option_without_value_raises_type_error S argv w "scan");
    reflexivity.
Defined.

(** X15 on [-d scan -s out] where [out] is a file. *)
Lemma X15_witness :
  let S := Demo.services in
  let argv := Demo.cmd (Some "scan") (Some (Some "out")) false false false false false false in
  let w : World S := {| fs := <["out" := File]> (fs (world_of S ["scan"]));
                        environ := ∅; BATCH_SIZE := None; log := [] |} in
  ∃ w', parse_args S argv w = (w', Raise (FileExistsError "out")) ∧
        fs w' = fs w ∧ log w' = log w ++ [EvMakedirs "out"].
Proof.
  intros S argv w.
  apply (X15_save_path_is_a_file S argv w "scan" "out"); reflexivity.
Defined.

(** X16 on [-d scan -f -m], the default save path: the masks are written
    into [scan] and no directory is created.  On [-d scan] with the faulty
    model, a run that fails in mask generation: no directory is created
    either. *)
Lemma X16_witness :
  let S := Demo.services in
  let argv := Demo.cmd (Some "scan") None true false true false false false in
  let w := world_of S ["scan"] in
  let run := parse_args S argv w in
  let S' := Demo.faulty_services in
  let argv' := Demo.cmd (Some "scan") None false false false false false false in
  let w' := world_of S' ["scan"] in
  let run' := parse_args S' argv' w' in
  (makedirs_calls S (log run.1) = [] ∧
   writes S (log run.1)
   = [("scan/femoral_cartilage.tiff", Demo.mask); ("scan/meniscus.tiff", Demo.mask)] ∧
   run.2 = Return tt) ∧
  (run'.2 = Raise AssertionError ∧
   ∃ new, log run'.1 = log w' ++ new ∧ makedirs_calls S' new = []).
Proof.
  intros S argv w run S' argv' w' run'. split.
  - destruct (X16_masks_go_into_existing_save_dir S argv w "scan" "")
      as (_ & _ & _ & Hcompletes); try reflexivity.
    destruct (Hcompletes (Demo.raw, "ref:scan") Demo.raw Demo.white [Demo.mask; Demo.mask])
      as (_ & Hmk & Hwrites & Hresult).
    + discriminate.
    + split_and!; [reflexivity|by exists []|reflexivity].
    + repeat constructor.
    + split_and!; [exact Hmk|exact Hwrites|exact (Hresult eq_refl)].
  - destruct (X16_masks_go_into_existing_save_dir S' argv' w' "scan" "")
      as (_ & (new & Hlog & Hmk & _) & _ & _); try reflexivity.
    split; [vm_compute; reflexivity|].
    exists new. split; [exact Hlog|exact Hmk].
Defined.
